(** * FIRE calculator: a shallow embedding of [fire-calculator.py]

    The script computes, from the sidebar inputs, the annualised cost of six
    expense categories, a cost-weighted inflation rate, the FIRE number at the
    target retirement year, and a year-by-year projection of savings against
    the FIRE number.

    Numbers.  Python [int] and [float] values are read as exact rationals
    ([Q]); rounding of binary floating point is not modelled.  Ages, which
    feed [range], are integers ([Z]).  Equality of computed amounts is
    therefore [Qeq] ([==]).

    Errors.  A Python exception aborts the script; fallible operations return
    in the [result] monad below. *)

From Stdlib Require Import ZArith QArith Qpower List Bool Lia Lqa.
Import ListNotations.
Local Open Scope Q_scope.

(** ** Exceptions and the error monad *)

Inductive exn : Type :=
| ZeroDivisionError
| IndexError
| ValueError.

Inductive result (A : Type) : Type :=
| Ok (x : A)
| Raise (e : exn).
Arguments Ok {A} x.
Arguments Raise {A} e.

Definition bind {A B : Type} (m : result A) (k : A -> result B) : result B :=
  match m with
  | Ok x => k x
  | Raise e => Raise e
  end.

Notation "x <- m ;; k" := (bind m (fun x => k))
  (at level 61, m at next level, right associativity).

(** ** The Python operations the script relies on *)

Module Py.

(** [a > b] on numbers. *)
Definition gt (a b : Q) : bool := negb (Qle_bool a b).

(** [a / b]: true division; a zero divisor raises. *)
Definition truediv (a b : Q) : result Q :=
  if Qeq_bool b 0 then Raise ZeroDivisionError else Ok (a / b).

(** [x ** n] for an integer exponent; zero to a negative power raises. *)
Definition pow (x : Q) (n : Z) : result Q :=
  if (n <? 0)%Z && Qeq_bool x 0 then Raise ZeroDivisionError else Ok (x ^ n).

(** [range(lo, hi)]: empty when [hi <= lo]. *)
Definition range (lo hi : Z) : list Z :=
  map (fun k => (lo + Z.of_nat k)%Z) (seq 0 (Z.to_nat (hi - lo))).

(** [l[-1]]. *)
Fixpoint last {A : Type} (l : list A) : result A :=
  match l with
  | [] => Raise IndexError
  | [x] => Ok x
  | _ :: l' => last l'
  end.

(** [True in l]. *)
Definition contains_true (l : list bool) : bool := existsb (fun b => b) l.

(** [l.index(True)]: the first position holding [True]. *)
Fixpoint index_true (l : list bool) : result nat :=
  match l with
  | [] => Raise ValueError
  | b :: l' => if b then Ok O else k <- index_true l' ;; Ok (S k)
  end.

End Py.

(** ** Sidebar inputs (source lines 18-59) *)

Record inputs : Type := mkInputs {
  current_age : Z;
  retirement_age : Z;
  current_savings : Q;
  monthly_income : Q;
  savings_rate : Q;
  annual_investment_return : Q;
  monthly_expense : Q;
  expense_inflation : Q;
  trips_per_year : Q;
  trip_budget : Q;
  trip_inflation : Q;
  car_upgrade_years : Q;
  car_cost : Q;
  car_inflation : Q;
  gadget_upgrade_years : Q;
  gadget_cost : Q;
  gadget_inflation : Q;
  num_dependents : Q;
  dependent_cost : Q;
  dependent_inflation : Q;
  misc_monthly : Q;
  misc_inflation : Q;
  swr : Q
}.

Definition between (lo x hi : Q) : bool := Qle_bool lo x && Qle_bool x hi.

(** The ranges the widgets enforce on what they return. *)
Definition widgets_ok (i : inputs) : bool :=
  (18 <=? current_age i)%Z && (current_age i <=? 80)%Z
  && (current_age i <=? retirement_age i)%Z && (retirement_age i <=? 100)%Z
  && Qle_bool 0 (current_savings i)
  && Qle_bool 0 (monthly_income i)
  && between 5 (savings_rate i) 80
  && between 1 (annual_investment_return i) 15
  && Qle_bool 0 (monthly_expense i)
  && between 1 (expense_inflation i) 10
  && between 0 (trips_per_year i) 10
  && Qle_bool 0 (trip_budget i)
  && between 1 (trip_inflation i) 10
  && between 1 (car_upgrade_years i) 20
  && Qle_bool 0 (car_cost i)
  && between 1 (car_inflation i) 10
  && between 1 (gadget_upgrade_years i) 10
  && Qle_bool 0 (gadget_cost i)
  && between 1 (gadget_inflation i) 10
  && between 0 (num_dependents i) 10
  && Qle_bool 0 (dependent_cost i)
  && between 1 (dependent_inflation i) 10
  && Qle_bool 0 (misc_monthly i)
  && between 1 (misc_inflation i) 10
  && between 2 (swr i) 5.

(** The values the widgets show before the user touches them. *)
Definition default_inputs : inputs :=
  {| current_age := 28; retirement_age := 45;
     current_savings := 1000000; monthly_income := 100000;
     savings_rate := 40; annual_investment_return := 7;
     monthly_expense := 50000; expense_inflation := 4;
     trips_per_year := 1; trip_budget := 250000; trip_inflation := 6;
     car_upgrade_years := 7; car_cost := 1500000; car_inflation := 5;
     gadget_upgrade_years := 7; gadget_cost := 500000; gadget_inflation := 3;
     num_dependents := 1; dependent_cost := 600000; dependent_inflation := 6;
     misc_monthly := 10000; misc_inflation := 6;
     swr := 4 |}.

(** Someone retiring this year on savings of a hundred million. *)
Definition settled_inputs : inputs :=
  {| current_age := 28; retirement_age := 28;
     current_savings := 100000000; monthly_income := 100000;
     savings_rate := 40; annual_investment_return := 7;
     monthly_expense := 50000; expense_inflation := 4;
     trips_per_year := 1; trip_budget := 250000; trip_inflation := 6;
     car_upgrade_years := 7; car_cost := 1500000; car_inflation := 5;
     gadget_upgrade_years := 7; gadget_cost := 500000; gadget_inflation := 3;
     num_dependents := 1; dependent_cost := 600000; dependent_inflation := 6;
     misc_monthly := 10000; misc_inflation := 6;
     swr := 4 |}.

(** The defaults, with the withdrawal rate forced to 0. *)
Definition zero_swr_inputs : inputs :=
  {| current_age := 28; retirement_age := 45;
     current_savings := 1000000; monthly_income := 100000;
     savings_rate := 40; annual_investment_return := 7;
     monthly_expense := 50000; expense_inflation := 4;
     trips_per_year := 1; trip_budget := 250000; trip_inflation := 6;
     car_upgrade_years := 7; car_cost := 1500000; car_inflation := 5;
     gadget_upgrade_years := 7; gadget_cost := 500000; gadget_inflation := 3;
     num_dependents := 1; dependent_cost := 600000; dependent_inflation := 6;
     misc_monthly := 10000; misc_inflation := 6;
     swr := 0 |}.

(** The defaults, with a retirement age below the current age. *)
Definition backwards_inputs : inputs :=
  {| current_age := 28; retirement_age := 25;
     current_savings := 1000000; monthly_income := 100000;
     savings_rate := 40; annual_investment_return := 7;
     monthly_expense := 50000; expense_inflation := 4;
     trips_per_year := 1; trip_budget := 250000; trip_inflation := 6;
     car_upgrade_years := 7; car_cost := 1500000; car_inflation := 5;
     gadget_upgrade_years := 7; gadget_cost := 500000; gadget_inflation := 3;
     num_dependents := 1; dependent_cost := 600000; dependent_inflation := 6;
     misc_monthly := 10000; misc_inflation := 6;
     swr := 4 |}.

Definition years_until_retirement (i : inputs) : Z :=
  (retirement_age i - current_age i)%Z.

(** ** Annualised values (source lines 62-67) *)

Record costs : Type := mkCosts {
  annual_expense : Q;
  annual_trips : Q;
  car_annual : Q;
  gadget_annual : Q;
  dependent_annual : Q;
  misc_annual : Q
}.

Definition annualize (i : inputs) : result costs :=
  let annual_expense := monthly_expense i * 12 in
  let annual_trips := trips_per_year i * trip_budget i in
  car_annual <- Py.truediv (car_cost i) (car_upgrade_years i) ;;
  gadget_annual <- Py.truediv (gadget_cost i) (gadget_upgrade_years i) ;;
  let dependent_annual := num_dependents i * dependent_cost i in
  let misc_annual := misc_monthly i * 12 in
  Ok (mkCosts annual_expense annual_trips car_annual gadget_annual
              dependent_annual misc_annual).

(** What [annualize] returns on the default inputs. *)
Definition default_costs : costs :=
  {| annual_expense := 600000; annual_trips := 250000;
     car_annual := 1500000 # 7; gadget_annual := 500000 # 7;
     dependent_annual := 600000; misc_annual := 120000 |}.

(** ** The projection table returned by [calculate_fire_projection] *)

Record projection : Type := mkProjection {
  age : list Z;
  year : list Z;
  savings : list Q;
  annual_expenses : list Q;
  fire_numbers : list Q;
  fire_achieved : list bool;
  fire_year : option nat
}.

Section Globals.

(** The module-level variables the functions close over. *)
Variable i : inputs.
Variable c : costs.

(** Source line 70. *)
Definition total_annual_cost : Q :=
  annual_expense c + annual_trips c + car_annual c + gadget_annual c
  + dependent_annual c + misc_annual c.

(** Source lines 72-82. *)
Definition weighted_inflation : result Q :=
  if Py.gt total_annual_cost 0 then
    Py.truediv
      (annual_expense c * expense_inflation i
       + annual_trips c * trip_inflation i
       + car_annual c * car_inflation i
       + gadget_annual c * gadget_inflation i
       + dependent_annual c * dependent_inflation i
       + misc_annual c * misc_inflation i)
      total_annual_cost
  else Ok 4.

(** Source lines 85-86. *)
Definition calculate_fire_number (annual_expenses swr : Q) : result Q :=
  q <- Py.truediv 100 swr ;;
  Ok (annual_expenses * q).

(** Source lines 88-96. *)
Definition calculate_future_expenses (years : Z) : result Q :=
  p <- Py.pow (1 + expense_inflation i / 100) years ;;
  let future_expense := annual_expense c * p in
  p <- Py.pow (1 + trip_inflation i / 100) years ;;
  let future_trips := annual_trips c * p in
  p <- Py.pow (1 + car_inflation i / 100) years ;;
  let future_car := car_annual c * p in
  p <- Py.pow (1 + gadget_inflation i / 100) years ;;
  let future_gadget := gadget_annual c * p in
  p <- Py.pow (1 + dependent_inflation i / 100) years ;;
  let future_dependent := dependent_annual c * p in
  p <- Py.pow (1 + misc_inflation i / 100) years ;;
  let future_misc := misc_annual c * p in
  Ok (future_expense + future_trips + future_car + future_gadget
      + future_dependent + future_misc).

(** Source lines 99-100: the FIRE number shown in the results panel. *)
Definition fire_number : result Q :=
  retirement_annual_expenses <-
    calculate_future_expenses (years_until_retirement i) ;;
  calculate_fire_number retirement_annual_expenses (swr i).

(** Source lines 157-158. *)
Definition projection_annual_saving : Q :=
  let monthly_saving := monthly_income i * (savings_rate i / 100) in
  monthly_saving * 12.

(** One pass of the loop body, source lines 169-179. *)
Definition projection_step (year_ : Z) (p : projection) : result projection :=
  prev <- Py.last (savings p) ;;
  let new_savings :=
    prev * (1 + annual_investment_return i / 100)
    + projection_annual_saving in
  new_expense <- calculate_future_expenses year_ ;;
  new_fire_number <- calculate_fire_number new_expense (swr i) ;;
  let achieved := Qle_bool new_fire_number new_savings in
  Ok {| age := age p;
        year := year p;
        savings := savings p ++ [new_savings];
        annual_expenses := annual_expenses p ++ [new_expense];
        fire_numbers := fire_numbers p ++ [new_fire_number];
        fire_achieved := fire_achieved p ++ [achieved];
        fire_year := fire_year p |}.

(** The [for year in range(...)] loop, source line 168. *)
Fixpoint projection_loop (ys : list Z) (p : projection) : result projection :=
  match ys with
  | [] => Ok p
  | y :: ys' => p' <- projection_step y p ;; projection_loop ys' p'
  end.

(** Source lines 156-194. *)
Definition calculate_fire_projection : result projection :=
  let years := Py.range 0 (years_until_retirement i + 1) in
  let ages := map (fun y => (current_age i + y)%Z) years in
  fn0 <- calculate_fire_number total_annual_cost (swr i) ;;
  p <- projection_loop (Py.range 1 (years_until_retirement i + 1))
         {| age := ages;
            year := years;
            savings := [current_savings i];
            annual_expenses := [total_annual_cost];
            fire_numbers := [fn0];
            fire_achieved := [false];
            fire_year := None |} ;;
  fy <- (if Py.contains_true (fire_achieved p)
         then k <- Py.index_true (fire_achieved p) ;; Ok (Some k)
         else Ok None) ;;
  Ok {| age := age p;
        year := year p;
        savings := savings p;
        annual_expenses := annual_expenses p;
        fire_numbers := fire_numbers p;
        fire_achieved := fire_achieved p;
        fire_year := fy |}.

(** Source line 305. *)
Definition annual_saving : Q :=
  monthly_income i * 12 * (savings_rate i / 100).

(** Source line 306, given the value of [fire_number]. *)
Definition years_to_save (fire_number : Q) : result Q :=
  if Qle_bool annual_saving 0 then Ok 0
  else Py.truediv (fire_number - current_savings i)
                  (annual_saving * (1 + annual_investment_return i / 100)).

End Globals.

(** ** The script, top to bottom *)

Record report : Type := mkReport {
  rep_costs : costs;
  rep_total_annual_cost : Q;
  rep_weighted_inflation : Q;
  rep_retirement_annual_expenses : Q;
  rep_fire_number : Q;
  rep_projection : projection;
  rep_annual_saving : Q;
  rep_years_to_save : Q
}.

(** Source lines 62-100: everything computed before the projection. *)
Definition headline (i : inputs) : result (costs * Q * Q * Q) :=
  c <- annualize i ;;
  w <- weighted_inflation i c ;;
  retirement_annual_expenses <-
    calculate_future_expenses i c (years_until_retirement i) ;;
  fn <- calculate_fire_number retirement_annual_expenses (swr i) ;;
  Ok (c, w, retirement_annual_expenses, fn).

(** Source lines 62-306. *)
Definition script (i : inputs) : result report :=
  h <- headline i ;;
  let '(c, w, retirement_annual_expenses, fn) := h in
  p <- calculate_fire_projection i c ;;
  y <- years_to_save i fn ;;
  Ok (mkReport c (total_annual_cost c) w retirement_annual_expenses fn p
               (annual_saving i) y).

(** ** Closed forms of what the loop appends

    These are proof-side descriptions; the lemmas below show that the code
    computes exactly these lists. *)

Section ClosedForms.

Variable i : inputs.
Variable c : costs.

(** The value of [calculate_future_expenses] when no power raises. *)
Definition future_cost (years : Z) : Q :=
  annual_expense c * (1 + expense_inflation i / 100) ^ years
  + annual_trips c * (1 + trip_inflation i / 100) ^ years
  + car_annual c * (1 + car_inflation i / 100) ^ years
  + gadget_annual c * (1 + gadget_inflation i / 100) ^ years
  + dependent_annual c * (1 + dependent_inflation i / 100) ^ years
  + misc_annual c * (1 + misc_inflation i / 100) ^ years.

(** One year of growth and contribution, as in [new_savings]. *)
Definition next_savings (s : Q) : Q :=
  s * (1 + annual_investment_return i / 100) + projection_annual_saving i.

(** The FIRE number for year [y >= 1]. *)
Definition required (y : Z) : Q := future_cost y * (100 / swr i).

(** The savings appended over [n] passes, starting after [s]. *)
Fixpoint grow (s : Q) (n : nat) : list Q :=
  match n with
  | O => []
  | S n' => next_savings s :: grow (next_savings s) n'
  end.

(** The flags appended over the years [ys], starting after savings [s]. *)
Fixpoint flags (s : Q) (ys : list Z) : list bool :=
  match ys with
  | [] => []
  | y :: ys' =>
      Qle_bool (required y) (next_savings s) :: flags (next_savings s) ys'
  end.

End ClosedForms.

(** The position of the first [true], if any. *)
Fixpoint first_true (l : list bool) : option nat :=
  match l with
  | [] => None
  | b :: l' => if b then Some O else option_map S (first_true l')
  end.

(** ** The spec's view of the categories

    The specification speaks of a list of categories, each with an annualised
    amount and an inflation rate.  The script has exactly six, in this order. *)

Definition categories (i : inputs) (c : costs) : list (Q * Q) :=
  [ (annual_expense c, expense_inflation i);
    (annual_trips c, trip_inflation i);
    (car_annual c, car_inflation i);
    (gadget_annual c, gadget_inflation i);
    (dependent_annual c, dependent_inflation i);
    (misc_annual c, misc_inflation i) ].

Definition Qsum (l : list Q) : Q := fold_right Qplus 0 l.

(** Spec: the sum of the annualised amounts. *)
Definition spec_total (cats : list (Q * Q)) : Q := Qsum (map fst cats).

(** Spec: the sum of amount times rate. *)
Definition spec_weighted_sum (cats : list (Q * Q)) : Q :=
  Qsum (map (fun ar => fst ar * snd ar) cats).

(** Spec: each amount compounded by its own rate, then summed. *)
Definition spec_future (cats : list (Q * Q)) (t : Z) : Q :=
  Qsum (map (fun ar => fst ar * (1 + snd ar / 100) ^ t) cats).

(** Spec: the whole current cost compounded by one blended rate. *)
Definition spec_blended (total rate : Q) (t : Z) : Q :=
  total * (1 + rate / 100) ^ t.

(** The data-model invariant on amounts, and the premise on rates. *)
Definition nonneg_costs (c : costs) : Prop :=
  0 <= annual_expense c /\ 0 <= annual_trips c /\ 0 <= car_annual c
  /\ 0 <= gadget_annual c /\ 0 <= dependent_annual c /\ 0 <= misc_annual c.

Definition nonneg_rates (i : inputs) : Prop :=
  0 <= expense_inflation i /\ 0 <= trip_inflation i /\ 0 <= car_inflation i
  /\ 0 <= gadget_inflation i /\ 0 <= dependent_inflation i
  /\ 0 <= misc_inflation i.

(** The horizon as a list length. *)
Definition horizon (i : inputs) : nat := Z.to_nat (years_until_retirement i).

(** ** What the page does with the projection (source lines 226-321)

    The chart, the messages and the metric tiles are Streamlit calls; what is
    kept here is the data each of them is given. *)

(** [l[k]] for an index [k >= 0]. *)
Definition getitem {A : Type} (l : list A) (k : nat) : result A :=
  match nth_error l k with
  | Some x => Ok x
  | None => Raise IndexError
  end.

(** Source lines 227-229: the coordinates of the star on the chart. *)
Definition fire_marker (p : projection) : result (option (Z * Q)) :=
  match fire_year p with
  | Some k =>
      fire_age <- getitem (age p) k ;;
      fire_amount <- getitem (savings p) k ;;
      Ok (Some (fire_age, fire_amount))
  | None => Ok None
  end.

(** The message of the insights section. *)
Inductive insight : Type :=
| Success (fire_age years_to_fire : Z) (years_earlier : option Z)
| Warning
| NoInsight.

(** Source lines 277-299. *)
Definition fire_insight (i : inputs) (p : projection) : result insight :=
  match fire_year p with
  | Some k =>
      fire_age <- getitem (age p) k ;;
      years_to_fire <- getitem (year p) k ;;
      Ok (Success fire_age years_to_fire
            (if (fire_age <? retirement_age i)%Z
             then Some (retirement_age i - fire_age)%Z
             else None))
  | None =>
      if (years_until_retirement i >? 0)%Z then Ok Warning else Ok NoInsight
  end.

(** What the third metric tile shows. *)
Inductive tile : Type :=
| Years (v : Q)
| NotAvailable.

(** [x < float('inf')]: every rational is below infinity. *)
Definition below_infinity (x : Q) : bool := true.

(** Source lines 318-321. *)
Definition years_to_save_tile (years_to_save : Q) : tile :=
  if Py.gt years_to_save 0 && below_infinity years_to_save
  then Years years_to_save
  else NotAvailable.

Record page : Type := mkPage {
  page_projection : projection;
  page_fire_number : Q;
  page_marker : option (Z * Q);
  page_insight : insight;
  page_years_to_save : Q;
  page_tile : tile
}.

(** Source lines 62-321, in the order the statements run. *)
Definition render (i : inputs) : result page :=
  h <- headline i ;;
  let '(c, w, retirement_annual_expenses, fn) := h in
  p <- calculate_fire_projection i c ;;
  marker <- fire_marker p ;;
  message <- fire_insight i p ;;
  y <- years_to_save i fn ;;
  Ok (mkPage p fn marker message y (years_to_save_tile y)).


(** The growth factor of savings and the sum [1 + g + ... + g^(n-1)]. *)
Definition growth (i : inputs) : Q := 1 + annual_investment_return i / 100.

Fixpoint geometric (g : Q) (n : nat) : Q :=
  match n with
  | O => 0
  | S n' => 1 + g * geometric g n'
  end.

(** * Properties *)

Example annualize_default : annualize default_inputs = Ok default_costs.
Proof. reflexivity. Qed.

Example widgets_ok_default : widgets_ok default_inputs = true.
Proof. reflexivity. Qed.

(** ** The Python operations *)

Lemma bind_ok {A B : Type} (x : A) (k : A -> result B) : bind (Ok x) k = k x.
Proof. reflexivity. Qed.

Lemma truediv_ok (a b : Q) : ~ b == 0 -> Py.truediv a b = Ok (a / b).
Proof.
  intros Hb. unfold Py.truediv.
  destruct (Qeq_bool b 0) eqn:E; [|reflexivity].
  apply Qeq_bool_eq in E. contradiction.
Qed.

Lemma truediv_zero (a b : Q) : b == 0 -> Py.truediv a b = Raise ZeroDivisionError.
Proof.
  intros Hb. unfold Py.truediv. now rewrite (Qeq_eq_bool _ _ Hb).
Qed.

Lemma pow_ok (x : Q) (n : Z) : (0 <= n)%Z -> Py.pow x n = Ok (x ^ n).
Proof.
  intros Hn. unfold Py.pow.
  destruct (Z.ltb_spec n 0); [lia | reflexivity].
Qed.

Lemma last_snoc {A : Type} (l : list A) (x : A) : Py.last (l ++ [x]) = Ok x.
Proof.
  induction l as [|a l IH]; [reflexivity|].
  simpl. destruct (l ++ [x]) eqn:E; [|exact IH].
  destruct l; discriminate.
Qed.

Lemma range_length (lo hi : Z) : length (Py.range lo hi) = Z.to_nat (hi - lo).
Proof. unfold Py.range. now rewrite length_map, length_seq. Qed.

Lemma range_nth (lo hi : Z) (k : nat) :
  (k < Z.to_nat (hi - lo))%nat ->
  nth_error (Py.range lo hi) k = Some (lo + Z.of_nat k)%Z.
Proof.
  intros Hk. unfold Py.range.
  rewrite nth_error_map, nth_error_seq.
  destruct (Nat.ltb_spec k (Z.to_nat (hi - lo))); [reflexivity | lia].
Qed.

Lemma range_lower (lo hi : Z) : Forall (fun y => lo <= y)%Z (Py.range lo hi).
Proof.
  unfold Py.range. apply Forall_forall. intros y Hy.
  apply in_map_iff in Hy. destruct Hy as [k [<- _]]. lia.
Qed.

(** ** [first_true] against [contains_true] and [index_true] *)

Lemma fire_year_lookup (l : list bool) :
  (if Py.contains_true l
   then k <- Py.index_true l ;; Ok (Some k)
   else Ok None) = Ok (first_true l).
Proof.
  induction l as [|b l IH]; [reflexivity|].
  unfold Py.contains_true in *. simpl. destruct b; [reflexivity|]. simpl.
  destruct (existsb (fun b => b) l).
  - destruct (Py.index_true l); simpl in *; [|discriminate].
    injection IH as <-. reflexivity.
  - injection IH as <-. reflexivity.
Qed.

Lemma first_true_some (l : list bool) (k : nat) :
  first_true l = Some k ->
  nth_error l k = Some true
  /\ forall j, (j < k)%nat -> nth_error l j = Some false.
Proof.
  revert k. induction l as [|b l IH]; intros k H; [discriminate|].
  simpl in H. destruct b.
  - injection H as <-. split; [reflexivity | intros j Hj; lia].
  - destruct (first_true l) as [k'|]; [|discriminate].
    injection H as <-. destruct (IH k' eq_refl) as [H1 H2].
    split; [exact H1|]. intros [|j] Hj; [reflexivity|].
    apply H2. lia.
Qed.

Lemma first_true_none (l : list bool) :
  first_true l = None <-> forall j, nth_error l j <> Some true.
Proof.
  induction l as [|b l IH]; simpl.
  - split; [intros _ [|j]; discriminate | reflexivity].
  - destruct b.
    + split; [discriminate | intros H; now destruct (H O)].
    + destruct (first_true l) as [k|]; simpl.
      * split; [discriminate|]. intros H. exfalso.
        assert (Hl : forall j, nth_error l j <> Some true)
          by (intros j; apply (H (S j))).
        apply IH in Hl. discriminate.
      * split; [|reflexivity]. intros _ [|j]; [simpl; discriminate|].
        simpl. now apply IH.
Qed.

(** ** The helpers succeed on the inputs the loop gives them *)

Section Engine.

Variable i : inputs.
Variable c : costs.

Lemma calculate_future_expenses_ok (years : Z) :
  (0 <= years)%Z ->
  calculate_future_expenses i c years = Ok (future_cost i c years).
Proof.
  intros Hy. unfold calculate_future_expenses.
  rewrite !(pow_ok _ _ Hy). reflexivity.
Qed.

Lemma calculate_fire_number_ok (e s : Q) :
  ~ s == 0 -> calculate_fire_number e s = Ok (e * (100 / s)).
Proof.
  intros Hs. unfold calculate_fire_number.
  now rewrite (truediv_ok _ _ Hs).
Qed.

Lemma calculate_fire_number_zero (e s : Q) :
  s == 0 -> calculate_fire_number e s = Raise ZeroDivisionError.
Proof.
  intros Hs. unfold calculate_fire_number.
  now rewrite (truediv_zero _ _ Hs).
Qed.

(** ** The loop appends one entry per year and touches nothing else *)

Lemma projection_step_ok (y : Z) (p : projection) (s : Q) :
  (0 <= y)%Z -> ~ swr i == 0 -> Py.last (savings p) = Ok s ->
  projection_step i c y p =
    Ok {| age := age p;
          year := year p;
          savings := savings p ++ [next_savings i s];
          annual_expenses := annual_expenses p ++ [future_cost i c y];
          fire_numbers := fire_numbers p ++ [required i c y];
          fire_achieved :=
            fire_achieved p ++ [Qle_bool (required i c y) (next_savings i s)];
          fire_year := fire_year p |}.
Proof.
  intros Hy Hs Hl. unfold projection_step.
  rewrite Hl. simpl.
  rewrite (calculate_future_expenses_ok _ Hy). simpl.
  rewrite (calculate_fire_number_ok _ _ Hs). reflexivity.
Qed.

Lemma projection_loop_ok (ys : list Z) :
  forall (p : projection) (s : Q),
    Forall (fun y => 0 <= y)%Z ys -> ~ swr i == 0 ->
    Py.last (savings p) = Ok s ->
    projection_loop i c ys p =
      Ok {| age := age p;
            year := year p;
            savings := savings p ++ grow i s (length ys);
            annual_expenses := annual_expenses p ++ map (future_cost i c) ys;
            fire_numbers := fire_numbers p ++ map (required i c) ys;
            fire_achieved := fire_achieved p ++ flags i c s ys;
            fire_year := fire_year p |}.
Proof.
  induction ys as [|y ys IH]; intros p s Hys Hs Hl.
  - simpl. rewrite !app_nil_r. now destruct p.
  - inversion Hys as [|? ? Hy Hys']; subst.
    simpl projection_loop.
    rewrite (projection_step_ok y p s Hy Hs Hl). simpl bind.
    rewrite (IH _ (next_savings i s) Hys' Hs) by apply last_snoc.
    simpl. rewrite <- !app_assoc. reflexivity.
Qed.

(** The whole function, for a non-negative horizon and a usable rate. *)
Lemma calculate_fire_projection_ok :
  (0 <= years_until_retirement i)%Z -> ~ swr i == 0 ->
  calculate_fire_projection i c =
    Ok {| age := map (fun y => (current_age i + y)%Z) (Py.range 0 (years_until_retirement i + 1));
          year := Py.range 0 (years_until_retirement i + 1);
          savings := current_savings i :: grow i (current_savings i) (horizon i);
          annual_expenses :=
            total_annual_cost c :: map (future_cost i c) (Py.range 1 (years_until_retirement i + 1));
          fire_numbers :=
            total_annual_cost c * (100 / swr i)
            :: map (required i c) (Py.range 1 (years_until_retirement i + 1));
          fire_achieved :=
            false :: flags i c (current_savings i) (Py.range 1 (years_until_retirement i + 1));
          fire_year :=
            first_true
              (false :: flags i c (current_savings i) (Py.range 1 (years_until_retirement i + 1))) |}.
Proof.
  intros HN Hs. unfold calculate_fire_projection.
  rewrite (calculate_fire_number_ok _ _ Hs). simpl bind.
  rewrite projection_loop_ok with (s := current_savings i);
    [| |exact Hs|reflexivity].
  - rewrite bind_ok.
    cbn [age year savings annual_expenses fire_numbers fire_achieved
         fire_year app].
    rewrite fire_year_lookup, bind_ok.
    rewrite range_length. unfold horizon.
    replace (Z.to_nat (years_until_retirement i + 1 - 1))
      with (Z.to_nat (years_until_retirement i)) by (f_equal; lia).
    reflexivity.
  - eapply Forall_impl; [|apply range_lower]. simpl. intros; lia.
Qed.

End Engine.

(** ** Facts about the appended lists *)

Lemma grow_length (i : inputs) (n : nat) :
  forall s, length (grow i s n) = n.
Proof. induction n as [|n IH]; intros s; simpl; [|rewrite IH]; reflexivity. Qed.

Lemma grow_nth (i : inputs) (n : nat) :
  forall (s : Q) (k : nat), (k < n)%nat ->
    exists prev,
      nth_error (s :: grow i s n) k = Some prev
      /\ nth_error (s :: grow i s n) (S k) = Some (next_savings i prev).
Proof.
  induction n as [|n IH]; intros s k Hk; [lia|].
  destruct k as [|k].
  - exists s. split; reflexivity.
  - destruct (IH (next_savings i s) k) as [prev [H1 H2]]; [lia|].
    exists prev. split; [exact H1 | exact H2].
Qed.

Lemma flags_length (i : inputs) (c : costs) (ys : list Z) :
  forall s, length (flags i c s ys) = length ys.
Proof. induction ys as [|y ys IH]; intros s; simpl; [|rewrite IH]; reflexivity. Qed.

Lemma next_savings_formula (i : inputs) (s : Q) :
  next_savings i s ==
  s * (1 + annual_investment_return i / 100)
  + monthly_income i * 12 * (savings_rate i / 100).
Proof. unfold next_savings, projection_annual_saving. ring. Qed.

Lemma range_from_zero (n : Z) :
  (0 <= n)%Z -> Py.range 0 (n + 1) = map Z.of_nat (seq 0 (S (Z.to_nat n))).
Proof.
  intros Hn. unfold Py.range.
  replace (Z.to_nat (n + 1 - 0)) with (S (Z.to_nat n)) by lia.
  apply map_ext. intros k. reflexivity.
Qed.

(** ** The projection series *)

(** C1. For a horizon [N >= 0] the projection has exactly [N + 1] rows, at
    offsets [0 .. N], whatever the flags are; savings start at
    [current_savings], and every later entry is the previous one times
    [1 + annual_investment_return / 100] plus the same yearly contribution
    [monthly_income * 12 * (savings_rate / 100)]. *)
Theorem projection_rows_and_recurrence (i : inputs) (c : costs) :
  (0 <= years_until_retirement i)%Z -> ~ swr i == 0 ->
  exists p,
    calculate_fire_projection i c = Ok p
    /\ year p = map Z.of_nat (seq 0 (S (horizon i)))
    /\ length (age p) = S (horizon i)
    /\ length (savings p) = S (horizon i)
    /\ length (annual_expenses p) = S (horizon i)
    /\ length (fire_numbers p) = S (horizon i)
    /\ length (fire_achieved p) = S (horizon i)
    /\ nth_error (savings p) 0 = Some (current_savings i)
    /\ forall y, (1 <= y <= horizon i)%nat ->
         exists prev cur,
           nth_error (savings p) (y - 1) = Some prev
           /\ nth_error (savings p) y = Some cur
           /\ cur == prev * (1 + annual_investment_return i / 100)
                     + monthly_income i * 12 * (savings_rate i / 100).
Proof.
  intros HN Hs. eexists. split; [apply calculate_fire_projection_ok; assumption|].
  cbn [age year savings annual_expenses fire_numbers fire_achieved fire_year].
  assert (Hlen : length (Py.range 1 (years_until_retirement i + 1)) = horizon i).
  { rewrite range_length. unfold horizon. f_equal. lia. }
  repeat split.
  - now apply range_from_zero.
  - rewrite length_map, range_from_zero, length_map, length_seq by assumption.
    reflexivity.
  - simpl. now rewrite grow_length.
  - simpl. now rewrite length_map, Hlen.
  - simpl. now rewrite length_map, Hlen.
  - simpl. now rewrite flags_length, Hlen.
  - intros y [Hy1 Hy2].
    destruct (grow_nth i (horizon i) (current_savings i) (y - 1)) as [prev [H1 H2]];
      [lia|].
    replace (S (y - 1)) with y in H2 by lia.
    exists prev, (next_savings i prev).
    repeat split; [exact H1 | exact H2 | apply next_savings_formula].
Qed.

Lemma projection_rows_and_recurrence_witness :
  (0 <= years_until_retirement default_inputs)%Z
  /\ ~ swr default_inputs == 0
  /\ exists p,
       calculate_fire_projection default_inputs default_costs = Ok p
       /\ year p = map Z.of_nat (seq 0 (S (horizon default_inputs)))
       /\ length (age p) = S (horizon default_inputs)
       /\ length (savings p) = S (horizon default_inputs)
       /\ length (annual_expenses p) = S (horizon default_inputs)
       /\ length (fire_numbers p) = S (horizon default_inputs)
       /\ length (fire_achieved p) = S (horizon default_inputs)
       /\ nth_error (savings p) 0 = Some (current_savings default_inputs)
       /\ forall y, (1 <= y <= horizon default_inputs)%nat ->
            exists prev cur,
              nth_error (savings p) (y - 1) = Some prev
              /\ nth_error (savings p) y = Some cur
              /\ cur == prev * (1 + annual_investment_return default_inputs / 100)
                        + monthly_income default_inputs * 12
                          * (savings_rate default_inputs / 100).
Proof.
  assert (H0 : (0 <= years_until_retirement default_inputs)%Z)
    by (vm_compute; discriminate).
  assert (H1 : ~ swr default_inputs == 0) by (vm_compute; discriminate).
  split; [exact H0|]. split; [exact H1|].
  exact (projection_rows_and_recurrence default_inputs default_costs H0 H1).
Defined.

(** ** Offset 0 *)

(** C3, as stated, fails: with savings of a hundred million against a FIRE
    number near forty-six million and a horizon of 0, the flag at offset 0 is
    not set and no FIRE year is reported. *)
Lemma offset_zero_flag_counterexample :
  exists p fn0,
    widgets_ok settled_inputs = true
    /\ annualize settled_inputs = Ok default_costs
    /\ years_until_retirement settled_inputs = 0%Z
    /\ calculate_fire_projection settled_inputs default_costs = Ok p
    /\ calculate_fire_number (total_annual_cost default_costs)
                             (swr settled_inputs) = Ok fn0
    /\ fn0 <= current_savings settled_inputs
    /\ ~ (nth_error (fire_achieved p) 0 = Some true
          <-> fn0 <= current_savings settled_inputs)
    /\ ~ (fire_year p <> None <-> fn0 <= current_savings settled_inputs).
Proof.
  eexists. eexists.
  split; [reflexivity|]. split; [reflexivity|]. split; [reflexivity|].
  split; [vm_compute; reflexivity|]. split; [vm_compute; reflexivity|].
  assert (H : (324750000 # 7) <= current_savings settled_inputs)
    by (vm_compute; discriminate).
  split; [exact H|]. split.
  - intros [_ Hc]. specialize (Hc H). discriminate.
  - intros [_ Hc]. apply (Hc H). reflexivity.
Qed.

(** C3, amended. The row at offset 0 has savings [current_savings] and FIRE
    number [calculate_fire_number total_annual_cost swr]; its flag is
    [False].  For a horizon of 0 the table has that one row and no FIRE
    year. *)
Theorem offset_zero_row (i : inputs) (c : costs) :
  (0 <= years_until_retirement i)%Z -> ~ swr i == 0 ->
  exists p fn0,
    calculate_fire_projection i c = Ok p
    /\ calculate_fire_number (total_annual_cost c) (swr i) = Ok fn0
    /\ nth_error (year p) 0 = Some 0%Z
    /\ nth_error (savings p) 0 = Some (current_savings i)
    /\ nth_error (fire_numbers p) 0 = Some fn0
    /\ nth_error (fire_achieved p) 0 = Some false
    /\ (years_until_retirement i = 0%Z ->
        year p = [0%Z]
        /\ savings p = [current_savings i]
        /\ fire_numbers p = [fn0]
        /\ fire_achieved p = [false]
        /\ fire_year p = None).
Proof.
  intros HN Hs. eexists. eexists.
  split; [apply calculate_fire_projection_ok; assumption|].
  split; [apply calculate_fire_number_ok; assumption|].
  cbn [age year savings annual_expenses fire_numbers fire_achieved fire_year].
  split; [rewrite range_from_zero by assumption; reflexivity|].
  repeat (split; [reflexivity|]).
  intros H0. unfold horizon. rewrite H0. repeat split.
Qed.

Lemma offset_zero_row_witness :
  (0 <= years_until_retirement settled_inputs)%Z
  /\ ~ swr settled_inputs == 0
  /\ exists p fn0,
       calculate_fire_projection settled_inputs default_costs = Ok p
       /\ calculate_fire_number (total_annual_cost default_costs)
                                (swr settled_inputs) = Ok fn0
       /\ nth_error (year p) 0 = Some 0%Z
       /\ nth_error (savings p) 0 = Some (current_savings settled_inputs)
       /\ nth_error (fire_numbers p) 0 = Some fn0
       /\ nth_error (fire_achieved p) 0 = Some false
       /\ (years_until_retirement settled_inputs = 0%Z ->
           year p = [0%Z]
           /\ savings p = [current_savings settled_inputs]
           /\ fire_numbers p = [fn0]
           /\ fire_achieved p = [false]
           /\ fire_year p = None).
Proof.
  assert (H0 : (0 <= years_until_retirement settled_inputs)%Z)
    by (vm_compute; discriminate).
  assert (H1 : ~ swr settled_inputs == 0) by (vm_compute; discriminate).
  split; [exact H0|]. split; [exact H1|].
  exact (offset_zero_row settled_inputs default_costs H0 H1).
Defined.

(** C8. The flag at offset 0 is always [False], so a reported FIRE year is
    at least 1, whatever the starting savings. *)
Theorem fire_year_at_least_one (i : inputs) (c : costs) :
  (0 <= years_until_retirement i)%Z -> ~ swr i == 0 ->
  exists p,
    calculate_fire_projection i c = Ok p
    /\ nth_error (fire_achieved p) 0 = Some false
    /\ forall k, fire_year p = Some k -> (1 <= k)%nat.
Proof.
  intros HN Hs. eexists.
  split; [apply calculate_fire_projection_ok; assumption|].
  cbn [fire_achieved fire_year]. split; [reflexivity|].
  intros k Hk. apply first_true_some in Hk. destruct Hk as [Hk _].
  destruct k; [discriminate | lia].
Qed.

Lemma fire_year_at_least_one_witness :
  (0 <= years_until_retirement settled_inputs)%Z
  /\ ~ swr settled_inputs == 0
  /\ exists p,
       calculate_fire_projection settled_inputs default_costs = Ok p
       /\ nth_error (fire_achieved p) 0 = Some false
       /\ forall k, fire_year p = Some k -> (1 <= k)%nat.
Proof.
  assert (H0 : (0 <= years_until_retirement settled_inputs)%Z)
    by (vm_compute; discriminate).
  assert (H1 : ~ swr settled_inputs == 0) by (vm_compute; discriminate).
  split; [exact H0|]. split; [exact H1|].
  exact (fire_year_at_least_one settled_inputs default_costs H0 H1).
Defined.

(** ** The FIRE year *)

(** C4. A reported FIRE year is the least offset in [0 .. N] whose flag is
    set: the flag there is [True] and every earlier flag is [False].  None is
    reported exactly when no offset in [0 .. N] has its flag set. *)
Theorem fire_year_is_first_achieved (i : inputs) (c : costs) :
  (0 <= years_until_retirement i)%Z -> ~ swr i == 0 ->
  exists p,
    calculate_fire_projection i c = Ok p
    /\ length (fire_achieved p) = S (horizon i)
    /\ (forall k, fire_year p = Some k ->
          (k <= horizon i)%nat
          /\ nth_error (fire_achieved p) k = Some true
          /\ forall j, (j < k)%nat -> nth_error (fire_achieved p) j = Some false)
    /\ (fire_year p = None <->
        forall j, (j <= horizon i)%nat ->
                  nth_error (fire_achieved p) j <> Some true).
Proof.
  intros HN Hs. eexists.
  split; [apply calculate_fire_projection_ok; assumption|].
  cbn [fire_achieved fire_year].
  set (l := false :: flags i c (current_savings i) _).
  assert (Hlen : length l = S (horizon i)).
  { subst l. simpl. rewrite flags_length, range_length.
    unfold horizon. do 2 f_equal. lia. }
  split; [exact Hlen|]. split.
  - intros k Hk. apply first_true_some in Hk. destruct Hk as [H1 H2].
    split; [|split; assumption].
    assert (Hlt : (k < length l)%nat)
      by (apply nth_error_Some; rewrite H1; discriminate).
    lia.
  - rewrite first_true_none. split.
    + intros H j _. apply H.
    + intros H j. destruct (Nat.le_gt_cases j (horizon i)) as [Hj|Hj].
      * now apply H.
      * assert (Hn : nth_error l j = None) by (apply nth_error_None; lia).
        rewrite Hn. discriminate.
Qed.

Lemma fire_year_is_first_achieved_witness :
  (0 <= years_until_retirement default_inputs)%Z
  /\ ~ swr default_inputs == 0
  /\ exists p,
       calculate_fire_projection default_inputs default_costs = Ok p
       /\ length (fire_achieved p) = S (horizon default_inputs)
       /\ (forall k, fire_year p = Some k ->
             (k <= horizon default_inputs)%nat
             /\ nth_error (fire_achieved p) k = Some true
             /\ forall j, (j < k)%nat ->
                          nth_error (fire_achieved p) j = Some false)
       /\ (fire_year p = None <->
           forall j, (j <= horizon default_inputs)%nat ->
                     nth_error (fire_achieved p) j <> Some true).
Proof.
  assert (H0 : (0 <= years_until_retirement default_inputs)%Z)
    by (vm_compute; discriminate).
  assert (H1 : ~ swr default_inputs == 0) by (vm_compute; discriminate).
  split; [exact H0|]. split; [exact H1|].
  exact (fire_year_is_first_achieved default_inputs default_costs H0 H1).
Defined.

(** ** Future cost *)

Lemma Qmult_one_r (a : Q) : a * 1 = a.
Proof.
  destruct a as [n d]. unfold Qmult. simpl.
  now rewrite Z.mul_1_r, Pos.mul_1_r.
Qed.

Lemma future_cost_zero (i : inputs) (c : costs) :
  future_cost i c 0 = total_annual_cost c.
Proof.
  unfold future_cost, total_annual_cost. cbn [Qpower].
  now rewrite !Qmult_one_r.
Qed.

Lemma future_cost_spec (i : inputs) (c : costs) (t : Z) :
  future_cost i c t == spec_future (categories i c) t.
Proof.
  unfold future_cost, spec_future, categories, Qsum. simpl. ring.
Qed.

Lemma total_annual_cost_spec (i : inputs) (c : costs) :
  total_annual_cost c == spec_total (categories i c).
Proof.
  unfold total_annual_cost, spec_total, categories, Qsum. simpl. ring.
Qed.

(** C2. For every non-negative [t], [calculate_future_expenses t] is the sum
    over the categories of the amount compounded by that category's own rate;
    at [t = 0] it is [total_annual_cost] itself; and on the default inputs,
    whose rates are not all equal, its value at [t = 2] differs from
    [total_annual_cost] compounded by the weighted rate. *)
Theorem future_expenses_compound_per_category
  (i : inputs) (c : costs) (t : Z) :
  (0 <= t)%Z ->
  (exists v,
      calculate_future_expenses i c t = Ok v
      /\ v == spec_future (categories i c) t)
  /\ calculate_future_expenses i c 0 = Ok (total_annual_cost c)
  /\ total_annual_cost c == spec_total (categories i c)
  /\ exists w v2,
       annualize default_inputs = Ok default_costs
       /\ ~ expense_inflation default_inputs == trip_inflation default_inputs
       /\ weighted_inflation default_inputs default_costs = Ok w
       /\ calculate_future_expenses default_inputs default_costs 2 = Ok v2
       /\ ~ v2 == spec_blended (total_annual_cost default_costs) w 2.
Proof.
  intros Ht. split; [|split; [|split]].
  - exists (future_cost i c t).
    split; [now apply calculate_future_expenses_ok | apply future_cost_spec].
  - rewrite calculate_future_expenses_ok by lia. now rewrite future_cost_zero.
  - apply total_annual_cost_spec.
  - eexists. eexists.
    split; [reflexivity|].
    split; [vm_compute; discriminate|].
    split; [vm_compute; reflexivity|].
    split; [vm_compute; reflexivity|].
    vm_compute. discriminate.
Qed.

Lemma future_expenses_compound_per_category_witness :
  (0 <= 17)%Z
  /\ (exists v,
         calculate_future_expenses default_inputs default_costs 17 = Ok v
         /\ v == spec_future (categories default_inputs default_costs) 17)
  /\ calculate_future_expenses default_inputs default_costs 0
     = Ok (total_annual_cost default_costs)
  /\ total_annual_cost default_costs
     == spec_total (categories default_inputs default_costs)
  /\ exists w v2,
       annualize default_inputs = Ok default_costs
       /\ ~ expense_inflation default_inputs == trip_inflation default_inputs
       /\ weighted_inflation default_inputs default_costs = Ok w
       /\ calculate_future_expenses default_inputs default_costs 2 = Ok v2
       /\ ~ v2 == spec_blended (total_annual_cost default_costs) w 2.
Proof.
  assert (H : (0 <= 17)%Z) by lia.
  split; [exact H|].
  exact (future_expenses_compound_per_category default_inputs default_costs 17 H).
Defined.

(** ** The aggregator *)

(** C5. When the two upgrade frequencies are not zero, the annualised values
    are [monthly * 12], [count * unit_cost] and [lump_sum / frequency];
    [total_annual_cost] is their sum; [weighted_inflation] is the sum of
    amount times rate divided by that total when the total is positive, and
    the constant 4 when the total is zero. *)
Theorem aggregator_weighted_inflation (i : inputs) :
  ~ car_upgrade_years i == 0 -> ~ gadget_upgrade_years i == 0 ->
  exists c w,
    annualize i = Ok c
    /\ weighted_inflation i c = Ok w
    /\ annual_expense c = monthly_expense i * 12
    /\ annual_trips c = trips_per_year i * trip_budget i
    /\ car_annual c = car_cost i / car_upgrade_years i
    /\ gadget_annual c = gadget_cost i / gadget_upgrade_years i
    /\ dependent_annual c = num_dependents i * dependent_cost i
    /\ misc_annual c = misc_monthly i * 12
    /\ total_annual_cost c == spec_total (categories i c)
    /\ (0 < spec_total (categories i c) ->
        w == spec_weighted_sum (categories i c) / spec_total (categories i c))
    /\ (spec_total (categories i c) == 0 -> w = 4).
Proof.
  intros Hcar Hgad.
  unfold annualize.
  rewrite (truediv_ok _ _ Hcar), bind_ok, (truediv_ok _ _ Hgad), bind_ok.
  set (c := mkCosts _ _ _ _ _ _).
  pose proof (total_annual_cost_spec i c) as Htot.
  exists c.
  unfold weighted_inflation, Py.gt.
  destruct (Qle_bool (total_annual_cost c) 0) eqn:E; simpl negb; cbv iota.
  - exists 4. repeat (split; [reflexivity|]).
    split; [exact Htot|]. split; [|reflexivity].
    intros Hpos. apply Qle_bool_iff in E. rewrite Htot in E.
    exfalso. apply (Qlt_not_le _ _ Hpos E).
  - assert (Hnz : ~ total_annual_cost c == 0).
    { intros H0. rewrite H0 in E. discriminate. }
    rewrite (truediv_ok _ _ Hnz).
    eexists. repeat (split; [reflexivity|]).
    split; [exact Htot|]. split.
    + intros _. rewrite <- Htot.
      apply Qdiv_comp; [|reflexivity].
      unfold spec_weighted_sum, categories, Qsum. simpl. ring.
    + intros H0. rewrite <- Htot in H0. contradiction.
Qed.

Lemma aggregator_weighted_inflation_witness :
  ~ car_upgrade_years default_inputs == 0
  /\ ~ gadget_upgrade_years default_inputs == 0
  /\ exists c w,
       annualize default_inputs = Ok c
       /\ weighted_inflation default_inputs c = Ok w
       /\ annual_expense c = monthly_expense default_inputs * 12
       /\ annual_trips c
          = trips_per_year default_inputs * trip_budget default_inputs
       /\ car_annual c
          = car_cost default_inputs / car_upgrade_years default_inputs
       /\ gadget_annual c
          = gadget_cost default_inputs / gadget_upgrade_years default_inputs
       /\ dependent_annual c
          = num_dependents default_inputs * dependent_cost default_inputs
       /\ misc_annual c = misc_monthly default_inputs * 12
       /\ total_annual_cost c == spec_total (categories default_inputs c)
       /\ (0 < spec_total (categories default_inputs c) ->
           w == spec_weighted_sum (categories default_inputs c)
                / spec_total (categories default_inputs c))
       /\ (spec_total (categories default_inputs c) == 0 -> w = 4).
Proof.
  assert (H0 : ~ car_upgrade_years default_inputs == 0)
    by (vm_compute; discriminate).
  assert (H1 : ~ gadget_upgrade_years default_inputs == 0)
    by (vm_compute; discriminate).
  split; [exact H0|]. split; [exact H1|].
  exact (aggregator_weighted_inflation default_inputs H0 H1).
Defined.

(** ** The FIRE-number column *)

Lemma fire_numbers_nth (i : inputs) (c : costs) (k : nat) :
  (0 <= years_until_retirement i)%Z -> (k <= horizon i)%nat ->
  nth_error
    (total_annual_cost c * (100 / swr i)
     :: map (required i c) (Py.range 1 (years_until_retirement i + 1))) k
  = Some (required i c (Z.of_nat k)).
Proof.
  intros HN Hk. destruct k as [|k].
  - simpl. unfold required. now rewrite future_cost_zero.
  - cbn [nth_error]. rewrite nth_error_map, range_nth.
    + cbn [option_map]. do 2 f_equal. lia.
    + unfold horizon in Hk. lia.
Qed.

Lemma compound_mono (a r : Q) (y1 y2 : Z) :
  0 <= a -> 0 <= r -> (y1 <= y2)%Z ->
  a * (1 + r / 100) ^ y1 <= a * (1 + r / 100) ^ y2.
Proof.
  intros Ha Hr Hy.
  rewrite !(Qmult_comm a). apply Qmult_le_compat_r; [|exact Ha].
  apply Qpower_le_compat_l; [exact Hy|].
  assert (H : 0 <= r / 100)
    by (apply Qmult_le_0_compat; [exact Hr | discriminate]).
  lra.
Qed.

Lemma future_cost_mono (i : inputs) (c : costs) (y1 y2 : Z) :
  nonneg_costs c -> nonneg_rates i -> (y1 <= y2)%Z ->
  future_cost i c y1 <= future_cost i c y2.
Proof.
  intros (A1 & A2 & A3 & A4 & A5 & A6) (R1 & R2 & R3 & R4 & R5 & R6) Hy.
  unfold future_cost.
  repeat apply Qplus_le_compat; apply compound_mono; assumption.
Qed.

Lemma required_mono (i : inputs) (c : costs) (y1 y2 : Z) :
  0 < swr i -> nonneg_costs c -> nonneg_rates i -> (y1 <= y2)%Z ->
  required i c y1 <= required i c y2.
Proof.
  intros Hs Hc Hr Hy. unfold required.
  apply Qmult_le_compat_r; [now apply future_cost_mono|].
  apply Qlt_le_weak. unfold Qdiv.
  apply Qmult_lt_0_compat; [reflexivity | now apply Qinv_lt_0_compat].
Qed.

(** C6. With non-negative amounts, a positive withdrawal rate and every
    inflation rate at least 0, the FIRE numbers of the projection never
    decrease from one offset to a later one. *)
Theorem fire_numbers_non_decreasing (i : inputs) (c : costs) :
  (0 <= years_until_retirement i)%Z -> 0 < swr i ->
  nonneg_costs c -> nonneg_rates i ->
  exists p,
    calculate_fire_projection i c = Ok p
    /\ length (fire_numbers p) = S (horizon i)
    /\ forall j k x y,
         (j <= k)%nat ->
         nth_error (fire_numbers p) j = Some x ->
         nth_error (fire_numbers p) k = Some y ->
         x <= y.
Proof.
  intros HN Hs Hc Hr.
  assert (Hnz : ~ swr i == 0) by (intros H0; rewrite H0 in Hs; discriminate).
  eexists. split; [apply calculate_fire_projection_ok; assumption|].
  cbn [fire_numbers].
  set (l := _ :: map (required i c) _).
  assert (Hlen : length l = S (horizon i)).
  { subst l. simpl. rewrite length_map, range_length.
    unfold horizon. do 2 f_equal. lia. }
  split; [exact Hlen|].
  intros j k x y Hjk Hx Hy.
  assert (Hk : (k < length l)%nat)
    by (apply nth_error_Some; rewrite Hy; discriminate).
  subst l.
  rewrite fire_numbers_nth in Hx by (assumption || lia).
  rewrite fire_numbers_nth in Hy by (assumption || lia).
  injection Hx as <-. injection Hy as <-.
  apply required_mono; try assumption. lia.
Qed.

Lemma fire_numbers_non_decreasing_witness :
  (0 <= years_until_retirement default_inputs)%Z
  /\ 0 < swr default_inputs
  /\ nonneg_costs default_costs
  /\ nonneg_rates default_inputs
  /\ exists p,
       calculate_fire_projection default_inputs default_costs = Ok p
       /\ length (fire_numbers p) = S (horizon default_inputs)
       /\ forall j k x y,
            (j <= k)%nat ->
            nth_error (fire_numbers p) j = Some x ->
            nth_error (fire_numbers p) k = Some y ->
            x <= y.
Proof.
  assert (H0 : (0 <= years_until_retirement default_inputs)%Z)
    by (vm_compute; discriminate).
  assert (H1 : 0 < swr default_inputs) by reflexivity.
  assert (H2 : nonneg_costs default_costs)
    by (repeat split; vm_compute; discriminate).
  assert (H3 : nonneg_rates default_inputs)
    by (repeat split; vm_compute; discriminate).
  split; [exact H0|]. split; [exact H1|]. split; [exact H2|]. split; [exact H3|].
  exact (fire_numbers_non_decreasing default_inputs default_costs H0 H1 H2 H3).
Defined.

(** C9. The FIRE number shown in the results panel is
    [calculate_fire_number] of the expenses compounded to the retirement
    year, and it is the last entry, at offset [N], of the projection's
    FIRE-number column. *)
Theorem headline_fire_number_is_last_row (i : inputs) (c : costs) :
  (0 <= years_until_retirement i)%Z -> ~ swr i == 0 ->
  exists p e fn,
    calculate_fire_projection i c = Ok p
    /\ calculate_future_expenses i c (years_until_retirement i) = Ok e
    /\ calculate_fire_number e (swr i) = Ok fn
    /\ fire_number i c = Ok fn
    /\ length (fire_numbers p) = S (horizon i)
    /\ nth_error (fire_numbers p) (horizon i) = Some fn.
Proof.
  intros HN Hs.
  pose proof (calculate_future_expenses_ok i c _ HN) as He.
  pose proof (calculate_fire_number_ok
                (future_cost i c (years_until_retirement i)) _ Hs) as Hf.
  eexists. exists (future_cost i c (years_until_retirement i)).
  exists (required i c (years_until_retirement i)).
  split; [apply calculate_fire_projection_ok; assumption|].
  split; [exact He|]. split; [exact Hf|].
  split; [unfold fire_number; rewrite He, bind_ok; exact Hf|].
  cbn [fire_numbers]. split.
  - simpl. rewrite length_map, range_length. unfold horizon. do 2 f_equal. lia.
  - rewrite fire_numbers_nth by (assumption || lia).
    unfold horizon. now rewrite Z2Nat.id.
Qed.

Lemma headline_fire_number_is_last_row_witness :
  (0 <= years_until_retirement default_inputs)%Z
  /\ ~ swr default_inputs == 0
  /\ exists p e fn,
       calculate_fire_projection default_inputs default_costs = Ok p
       /\ calculate_future_expenses default_inputs default_costs
            (years_until_retirement default_inputs) = Ok e
       /\ calculate_fire_number e (swr default_inputs) = Ok fn
       /\ fire_number default_inputs default_costs = Ok fn
       /\ length (fire_numbers p) = S (horizon default_inputs)
       /\ nth_error (fire_numbers p) (horizon default_inputs) = Some fn.
Proof.
  assert (H0 : (0 <= years_until_retirement default_inputs)%Z)
    by (vm_compute; discriminate).
  assert (H1 : ~ swr default_inputs == 0) by (vm_compute; discriminate).
  split; [exact H0|]. split; [exact H1|].
  exact (headline_fire_number_is_last_row default_inputs default_costs H0 H1).
Defined.

(** ** A zero withdrawal rate *)

Lemma truediv_raises (a b : Q) (e : exn) :
  Py.truediv a b = Raise e -> e = ZeroDivisionError.
Proof.
  unfold Py.truediv. destruct (Qeq_bool b 0); congruence.
Qed.

Lemma pow_raises (x : Q) (n : Z) (e : exn) :
  Py.pow x n = Raise e -> e = ZeroDivisionError.
Proof.
  unfold Py.pow. destruct ((n <? 0)%Z && Qeq_bool x 0); congruence.
Qed.

Lemma annualize_raises (i : inputs) (e : exn) :
  annualize i = Raise e -> e = ZeroDivisionError.
Proof.
  unfold annualize.
  destruct (Py.truediv (car_cost i) (car_upgrade_years i)) eqn:E1;
    [|simpl; intros [= <-]; now apply truediv_raises in E1].
  destruct (Py.truediv (gadget_cost i) (gadget_upgrade_years i)) eqn:E2;
    [|simpl; intros [= <-]; now apply truediv_raises in E2].
  discriminate.
Qed.

Lemma weighted_inflation_raises (i : inputs) (c : costs) (e : exn) :
  weighted_inflation i c = Raise e -> e = ZeroDivisionError.
Proof.
  unfold weighted_inflation.
  destruct (Py.gt (total_annual_cost c) 0); [apply truediv_raises | discriminate].
Qed.

Lemma calculate_future_expenses_raises
  (i : inputs) (c : costs) (years : Z) (e : exn) :
  calculate_future_expenses i c years = Raise e -> e = ZeroDivisionError.
Proof.
  unfold calculate_future_expenses.
  repeat match goal with
         | |- context [bind (Py.pow ?x ?n) _] =>
             let E := fresh "E" in
             destruct (Py.pow x n) eqn:E;
             [rewrite bind_ok
             |simpl; intros [= <-]; now apply pow_raises in E]
         end.
  discriminate.
Qed.

(** C7. With a withdrawal rate of 0 the FIRE number is not computed:
    [calculate_fire_number] raises, the script stops with that error in the
    part that precedes the projection, and no report, hence no number of any
    kind, is produced.  Called on its own, the projection raises as well. *)
Theorem zero_swr_raises (i : inputs) :
  swr i == 0 ->
  (forall e, calculate_fire_number e (swr i) = Raise ZeroDivisionError)
  /\ headline i = Raise ZeroDivisionError
  /\ script i = Raise ZeroDivisionError
  /\ (forall c, fire_number i c = Raise ZeroDivisionError)
  /\ (forall c, calculate_fire_projection i c = Raise ZeroDivisionError).
Proof.
  intros Hs.
  assert (Hfn : forall e, calculate_fire_number e (swr i) = Raise ZeroDivisionError)
    by (intros e; now apply calculate_fire_number_zero).
  assert (Hh : headline i = Raise ZeroDivisionError).
  { unfold headline.
    destruct (annualize i) as [c|e] eqn:E1;
      [rewrite bind_ok | apply annualize_raises in E1; now subst].
    destruct (weighted_inflation i c) as [w|e] eqn:E2;
      [rewrite bind_ok | apply weighted_inflation_raises in E2; now subst].
    destruct (calculate_future_expenses i c (years_until_retirement i))
      as [x|e] eqn:E3;
      [rewrite bind_ok | apply calculate_future_expenses_raises in E3; now subst].
    now rewrite Hfn. }
  split; [exact Hfn|]. split; [exact Hh|].
  split; [unfold script; now rewrite Hh|]. split.
  - intros c. unfold fire_number.
    destruct (calculate_future_expenses i c (years_until_retirement i))
      as [x|e] eqn:E3;
      [rewrite bind_ok; apply Hfn
      |apply calculate_future_expenses_raises in E3; now subst].
  - intros c. unfold calculate_fire_projection. now rewrite Hfn.
Qed.

Lemma zero_swr_raises_witness :
  swr zero_swr_inputs == 0
  /\ (forall e,
        calculate_fire_number e (swr zero_swr_inputs) = Raise ZeroDivisionError)
  /\ headline zero_swr_inputs = Raise ZeroDivisionError
  /\ script zero_swr_inputs = Raise ZeroDivisionError
  /\ (forall c, fire_number zero_swr_inputs c = Raise ZeroDivisionError)
  /\ (forall c,
        calculate_fire_projection zero_swr_inputs c = Raise ZeroDivisionError).
Proof.
  assert (H : swr zero_swr_inputs == 0) by reflexivity.
  split; [exact H|].
  exact (zero_swr_raises zero_swr_inputs H).
Defined.

(** ** Years to save *)

Ltac widget_facts H :=
  unfold widgets_ok, between in H;
  repeat match goal with
         | H' : (_ && _)%bool = true |- _ =>
             apply andb_prop in H'; destruct H'
         end;
  repeat match goal with
         | H' : Qle_bool _ _ = true |- _ => apply Qle_bool_iff in H'
         | H' : (_ <=? _)%Z = true |- _ => apply Z.leb_le in H'
         end.

Lemma widgets_ok_return (i : inputs) :
  widgets_ok i = true -> 1 <= annual_investment_return i.
Proof. intros H. widget_facts H. assumption. Qed.

Lemma years_to_save_divisor_positive (i : inputs) :
  1 <= annual_investment_return i -> 0 < annual_saving i ->
  0 < annual_saving i * (1 + annual_investment_return i / 100).
Proof.
  intros Hr Ha.
  apply Qmult_lt_0_compat; [exact Ha|].
  assert (H : 0 <= annual_investment_return i / 100)
    by (apply Qmult_le_0_compat; [lra | discriminate]).
  lra.
Qed.

Lemma years_to_save_ok (i : inputs) (fn : Q) :
  1 <= annual_investment_return i -> exists v, years_to_save i fn = Ok v.
Proof.
  intros Hr. unfold years_to_save.
  destruct (Qle_bool (annual_saving i) 0) eqn:E; [now exists 0|].
  assert (Hpos : 0 < annual_saving i).
  { apply Qnot_le_lt. intros Hle. apply Qle_bool_iff in Hle. congruence. }
  pose proof (years_to_save_divisor_positive i Hr Hpos) as Hd.
  rewrite truediv_ok by (intros H0; rewrite H0 in Hd; discriminate).
  eexists. reflexivity.
Qed.

(** C10. On inputs within the widget ranges, [years_to_save] always has a
    value: it is 0, with no division performed, when [annual_saving <= 0];
    otherwise [annual_saving > 0], the divisor
    [annual_saving * (1 + annual_investment_return / 100)] is positive, and
    the value is the quotient.  The division never raises. *)
Theorem years_to_save_never_raises (i : inputs) (fn : Q) :
  widgets_ok i = true ->
  exists v,
    years_to_save i fn = Ok v
    /\ (annual_saving i <= 0 -> v = 0)
    /\ (0 < annual_saving i ->
        0 < annual_saving i * (1 + annual_investment_return i / 100)
        /\ v = (fn - current_savings i)
               / (annual_saving i * (1 + annual_investment_return i / 100))).
Proof.
  intros Hw. apply widgets_ok_return in Hw. unfold years_to_save.
  destruct (Qle_bool (annual_saving i) 0) eqn:E.
  - exists 0. split; [reflexivity|]. split; [reflexivity|].
    intros Hpos. apply Qle_bool_iff in E.
    exfalso. apply (Qlt_not_le _ _ Hpos E).
  - assert (Hpos : 0 < annual_saving i).
    { apply Qnot_le_lt. intros Hle. apply Qle_bool_iff in Hle. congruence. }
    pose proof (years_to_save_divisor_positive i Hw Hpos) as Hd.
    rewrite truediv_ok by (intros H0; rewrite H0 in Hd; discriminate).
    eexists. split; [reflexivity|]. split.
    + intros Hle. exfalso. apply (Qlt_not_le _ _ Hpos Hle).
    + intros _. split; [exact Hd | reflexivity].
Qed.

Lemma years_to_save_never_raises_witness :
  widgets_ok default_inputs = true
  /\ exists v,
       years_to_save default_inputs 100000000 = Ok v
       /\ (annual_saving default_inputs <= 0 -> v = 0)
       /\ (0 < annual_saving default_inputs ->
           0 < annual_saving default_inputs
               * (1 + annual_investment_return default_inputs / 100)
           /\ v = (100000000 - current_savings default_inputs)
                  / (annual_saving default_inputs
                     * (1 + annual_investment_return default_inputs / 100))).
Proof.
  assert (H : widgets_ok default_inputs = true) by reflexivity.
  split; [exact H|].
  exact (years_to_save_never_raises default_inputs 100000000 H).
Defined.

(** ** The script runs on every input the widgets can deliver *)

Lemma weighted_inflation_ok (i : inputs) (c : costs) :
  exists w, weighted_inflation i c = Ok w.
Proof.
  unfold weighted_inflation, Py.gt.
  destruct (Qle_bool (total_annual_cost c) 0) eqn:E; simpl negb; cbv iota.
  - now exists 4.
  - rewrite truediv_ok; [eexists; reflexivity|].
    intros H0. rewrite H0 in E. discriminate.
Qed.

Lemma script_ok (i : inputs) :
  widgets_ok i = true ->
  exists r,
    script i = Ok r
    /\ annualize i = Ok (rep_costs r)
    /\ fire_number i (rep_costs r) = Ok (rep_fire_number r)
    /\ calculate_fire_projection i (rep_costs r) = Ok (rep_projection r)
    /\ years_to_save i (rep_fire_number r) = Ok (rep_years_to_save r).
Proof.
  intros Hw. pose proof (widgets_ok_return i Hw) as Hret.
  widget_facts Hw.
  assert (Hcar : ~ car_upgrade_years i == 0) by (intros E; lra).
  assert (Hgad : ~ gadget_upgrade_years i == 0) by (intros E; lra).
  assert (Hswr : ~ swr i == 0) by (intros E; lra).
  assert (HN : (0 <= years_until_retirement i)%Z)
    by (unfold years_until_retirement; lia).
  assert (Ha : exists c, annualize i = Ok c).
  { unfold annualize.
    rewrite (truediv_ok _ _ Hcar), bind_ok, (truediv_ok _ _ Hgad), bind_ok.
    eexists; reflexivity. }
  destruct Ha as [c Ha].
  destruct (weighted_inflation_ok i c) as [w Hwi].
  destruct (years_to_save_ok i
              (future_cost i c (years_until_retirement i) * (100 / swr i)) Hret)
    as [v Hv].
  pose proof (calculate_fire_projection_ok i c HN Hswr) as Hp.
  pose proof (calculate_future_expenses_ok i c _ HN) as He.
  pose proof (calculate_fire_number_ok
                (future_cost i c (years_until_retirement i)) _ Hswr) as Hf.
  eexists. split.
  - unfold script, headline.
    rewrite Ha, bind_ok, Hwi, bind_ok, He, bind_ok, Hf, !bind_ok.
    rewrite Hp, bind_ok, Hv, bind_ok. reflexivity.
  - cbn [rep_costs rep_fire_number rep_projection rep_years_to_save].
    split; [exact Ha|].
    split; [unfold fire_number; rewrite He, bind_ok; exact Hf|].
    split; [exact Hp | exact Hv].
Qed.

(** * Further properties of the projection table *)

Lemma ages_nth (i : inputs) (k : nat) :
  (0 <= years_until_retirement i)%Z -> (k <= horizon i)%nat ->
  nth_error
    (map (fun y => (current_age i + y)%Z)
         (Py.range 0 (years_until_retirement i + 1))) k
  = Some (current_age i + Z.of_nat k)%Z.
Proof.
  intros HN Hk. rewrite nth_error_map, range_nth; [reflexivity|].
  unfold horizon in Hk. lia.
Qed.

Lemma years_nth (i : inputs) (k : nat) :
  (0 <= years_until_retirement i)%Z -> (k <= horizon i)%nat ->
  nth_error (Py.range 0 (years_until_retirement i + 1)) k = Some (Z.of_nat k).
Proof.
  intros HN Hk. rewrite range_nth; [reflexivity|].
  unfold horizon in Hk. lia.
Qed.

Lemma expenses_nth (i : inputs) (c : costs) (k : nat) :
  (0 <= years_until_retirement i)%Z -> (k <= horizon i)%nat ->
  nth_error
    (total_annual_cost c
     :: map (future_cost i c) (Py.range 1 (years_until_retirement i + 1))) k
  = Some (future_cost i c (Z.of_nat k)).
Proof.
  intros HN Hk. destruct k as [|k].
  - simpl. now rewrite future_cost_zero.
  - cbn [nth_error]. rewrite nth_error_map, range_nth.
    + cbn [option_map]. do 2 f_equal. lia.
    + unfold horizon in Hk. lia.
Qed.

Lemma savings_nth_some (i : inputs) (n k : nat) (s0 : Q) :
  (k <= n)%nat -> exists s, nth_error (s0 :: grow i s0 n) k = Some s.
Proof.
  intros Hk.
  destruct (nth_error (s0 :: grow i s0 n) k) as [s|] eqn:E; [now exists s|].
  apply nth_error_None in E. simpl in E. rewrite grow_length in E. lia.
Qed.

Lemma flags_nth (i : inputs) (c : costs) (ys : list Z) :
  forall (s0 : Q) (k : nat) (y : Z) (x : Q),
    nth_error ys k = Some y ->
    nth_error (grow i s0 (length ys)) k = Some x ->
    nth_error (flags i c s0 ys) k = Some (Qle_bool (required i c y) x).
Proof.
  induction ys as [|y0 ys IH]; intros s0 k y x Hy Hx.
  - destruct k; discriminate.
  - destruct k as [|k]; simpl in *.
    + injection Hy as <-. injection Hx as <-. reflexivity.
    + now apply IH.
Qed.

(** X1. Row [y] of the table is for age [current_age + y] and year [y]. *)
Theorem projection_age_and_year (i : inputs) (c : costs) :
  (0 <= years_until_retirement i)%Z -> ~ swr i == 0 ->
  exists p,
    calculate_fire_projection i c = Ok p
    /\ forall y, (y <= horizon i)%nat ->
         nth_error (age p) y = Some (current_age i + Z.of_nat y)%Z
         /\ nth_error (year p) y = Some (Z.of_nat y).
Proof.
  intros HN Hs. eexists.
  split; [apply calculate_fire_projection_ok; assumption|].
  cbn [age year]. intros y Hy. split.
  - now apply ages_nth.
  - now apply years_nth.
Qed.

Lemma projection_age_and_year_witness :
  (0 <= years_until_retirement default_inputs)%Z
  /\ ~ swr default_inputs == 0
  /\ exists p,
       calculate_fire_projection default_inputs default_costs = Ok p
       /\ forall y, (y <= horizon default_inputs)%nat ->
            nth_error (age p) y
            = Some (current_age default_inputs + Z.of_nat y)%Z
            /\ nth_error (year p) y = Some (Z.of_nat y).
Proof.
  assert (H0 : (0 <= years_until_retirement default_inputs)%Z)
    by (vm_compute; discriminate).
  assert (H1 : ~ swr default_inputs == 0) by (vm_compute; discriminate).
  split; [exact H0|]. split; [exact H1|].
  exact (projection_age_and_year default_inputs default_costs H0 H1).
Defined.

(** X2. In every row the expense entry is what [calculate_future_expenses]
    returns for that year, and the FIRE number entry is what
    [calculate_fire_number] returns for that expense. *)
Theorem projection_expense_and_fire_number (i : inputs) (c : costs) :
  (0 <= years_until_retirement i)%Z -> ~ swr i == 0 ->
  exists p,
    calculate_fire_projection i c = Ok p
    /\ forall y, (y <= horizon i)%nat ->
         exists e fn,
           nth_error (annual_expenses p) y = Some e
           /\ nth_error (fire_numbers p) y = Some fn
           /\ calculate_future_expenses i c (Z.of_nat y) = Ok e
           /\ calculate_fire_number e (swr i) = Ok fn.
Proof.
  intros HN Hs. eexists.
  split; [apply calculate_fire_projection_ok; assumption|].
  cbn [annual_expenses fire_numbers]. intros y Hy.
  exists (future_cost i c (Z.of_nat y)), (required i c (Z.of_nat y)).
  split; [now apply expenses_nth|].
  split; [now apply fire_numbers_nth|].
  split; [apply calculate_future_expenses_ok; lia|].
  now apply calculate_fire_number_ok.
Qed.

Lemma projection_expense_and_fire_number_witness :
  (0 <= years_until_retirement default_inputs)%Z
  /\ ~ swr default_inputs == 0
  /\ exists p,
       calculate_fire_projection default_inputs default_costs = Ok p
       /\ forall y, (y <= horizon default_inputs)%nat ->
            exists e fn,
              nth_error (annual_expenses p) y = Some e
              /\ nth_error (fire_numbers p) y = Some fn
              /\ calculate_future_expenses default_inputs default_costs
                   (Z.of_nat y) = Ok e
              /\ calculate_fire_number e (swr default_inputs) = Ok fn.
Proof.
  assert (H0 : (0 <= years_until_retirement default_inputs)%Z)
    by (vm_compute; discriminate).
  assert (H1 : ~ swr default_inputs == 0) by (vm_compute; discriminate).
  split; [exact H0|]. split; [exact H1|].
  exact (projection_expense_and_fire_number default_inputs default_costs H0 H1).
Defined.

(** X3. From offset 1 on, the flag of a row is set exactly when that row's
    savings are at least that row's FIRE number. *)
Theorem projection_flag_compares_row (i : inputs) (c : costs) :
  (0 <= years_until_retirement i)%Z -> ~ swr i == 0 ->
  exists p,
    calculate_fire_projection i c = Ok p
    /\ forall y, (1 <= y <= horizon i)%nat ->
         exists s fn b,
           nth_error (savings p) y = Some s
           /\ nth_error (fire_numbers p) y = Some fn
           /\ nth_error (fire_achieved p) y = Some b
           /\ (b = true <-> fn <= s).
Proof.
  intros HN Hs. eexists.
  split; [apply calculate_fire_projection_ok; assumption|].
  cbn [savings fire_numbers fire_achieved]. intros y [Hy1 Hy2].
  destruct (savings_nth_some i (horizon i) y (current_savings i) Hy2) as [s Hsv].
  exists s, (required i c (Z.of_nat y)), (Qle_bool (required i c (Z.of_nat y)) s).
  split; [exact Hsv|].
  split; [apply fire_numbers_nth; assumption|].
  split; [|apply Qle_bool_iff].
  destruct y as [|y]; [lia|]. cbn [nth_error] in *.
  apply flags_nth.
  - rewrite range_nth; [f_equal; lia | unfold horizon in Hy2; lia].
  - rewrite range_length.
    replace (Z.to_nat (years_until_retirement i + 1 - 1)) with (horizon i)
      by (unfold horizon; f_equal; lia).
    exact Hsv.
Qed.

Lemma projection_flag_compares_row_witness :
  (0 <= years_until_retirement default_inputs)%Z
  /\ ~ swr default_inputs == 0
  /\ exists p,
       calculate_fire_projection default_inputs default_costs = Ok p
       /\ forall y, (1 <= y <= horizon default_inputs)%nat ->
            exists s fn b,
              nth_error (savings p) y = Some s
              /\ nth_error (fire_numbers p) y = Some fn
              /\ nth_error (fire_achieved p) y = Some b
              /\ (b = true <-> fn <= s).
Proof.
  assert (H0 : (0 <= years_until_retirement default_inputs)%Z)
    by (vm_compute; discriminate).
  assert (H1 : ~ swr default_inputs == 0) by (vm_compute; discriminate).
  split; [exact H0|]. split; [exact H1|].
  exact (projection_flag_compares_row default_inputs default_costs H0 H1).
Defined.

(** ** The savings column *)

Lemma grow_closed (i : inputs) (n : nat) (s0 : Q) :
  forall (k : nat) (s : Q),
    nth_error (s0 :: grow i s0 n) k = Some s ->
    s == s0 * growth i ^ Z.of_nat k
         + projection_annual_saving i * geometric (growth i) k.
Proof.
  induction k as [|k IH]; intros s Hk.
  - injection Hk as <-. simpl. ring.
  - assert (Hlt : (k < n)%nat).
    { assert (H : (S k < length (s0 :: grow i s0 n))%nat)
        by (apply nth_error_Some; rewrite Hk; discriminate).
      simpl in H. rewrite grow_length in H. lia. }
    destruct (grow_nth i n s0 k Hlt) as [prev [H1 H2]].
    rewrite Hk in H2. injection H2 as ->.
    specialize (IH prev H1).
    replace (Z.of_nat (S k)) with (Z.of_nat k + 1)%Z by lia.
    rewrite Qpower_plus' by lia.
    unfold next_savings. fold (growth i). rewrite IH.
    cbn [geometric]. change (growth i ^ 1) with (growth i). ring.
Qed.

Lemma geometric_closed (g : Q) (n : nat) :
  ~ g == 1 -> geometric g n == (g ^ Z.of_nat n - 1) / (g - 1).
Proof.
  intros Hg. assert (Hd : ~ g - 1 == 0) by (intros H; apply Hg; lra).
  induction n as [|n IH].
  - simpl. field. exact Hd.
  - cbn [geometric]. rewrite IH.
    replace (Z.of_nat (S n)) with (Z.of_nat n + 1)%Z by lia.
    rewrite Qpower_plus' by lia. change (g ^ 1) with g.
    field. exact Hd.
Qed.

(** X4. With a non-zero return the savings of row [y] follow the
    compound-interest formula: the starting savings grown [y] times plus the
    yearly contribution times [(g^y - 1) / (g - 1)], where
    [g = 1 + annual_investment_return / 100]. *)
Theorem savings_compound_formula (i : inputs) (c : costs) :
  (0 <= years_until_retirement i)%Z -> ~ swr i == 0 ->
  ~ annual_investment_return i == 0 ->
  exists p,
    calculate_fire_projection i c = Ok p
    /\ forall y, (y <= horizon i)%nat ->
         exists s,
           nth_error (savings p) y = Some s
           /\ s == current_savings i * growth i ^ Z.of_nat y
                   + monthly_income i * (savings_rate i / 100) * 12
                     * ((growth i ^ Z.of_nat y - 1) / (growth i - 1)).
Proof.
  intros HN Hs Hr. eexists.
  split; [apply calculate_fire_projection_ok; assumption|].
  cbn [savings]. intros y Hy.
  destruct (savings_nth_some i (horizon i) y (current_savings i) Hy) as [s Hsv].
  exists s. split; [exact Hsv|].
  rewrite (grow_closed _ _ _ _ _ Hsv).
  rewrite geometric_closed; [reflexivity|].
  unfold growth. intros H. apply Hr.
  assert (H' : annual_investment_return i / 100 == 0) by lra.
  rewrite <- (Qmult_div_r (annual_investment_return i) 100) by discriminate.
  rewrite H'. reflexivity.
Qed.

Lemma savings_compound_formula_witness :
  (0 <= years_until_retirement default_inputs)%Z
  /\ ~ swr default_inputs == 0
  /\ ~ annual_investment_return default_inputs == 0
  /\ exists p,
       calculate_fire_projection default_inputs default_costs = Ok p
       /\ forall y, (y <= horizon default_inputs)%nat ->
            exists s,
              nth_error (savings p) y = Some s
              /\ s == current_savings default_inputs
                      * growth default_inputs ^ Z.of_nat y
                      + monthly_income default_inputs
                        * (savings_rate default_inputs / 100) * 12
                        * ((growth default_inputs ^ Z.of_nat y - 1)
                           / (growth default_inputs - 1)).
Proof.
  assert (H0 : (0 <= years_until_retirement default_inputs)%Z)
    by (vm_compute; discriminate).
  assert (H1 : ~ swr default_inputs == 0) by (vm_compute; discriminate).
  assert (H2 : ~ annual_investment_return default_inputs == 0)
    by (vm_compute; discriminate).
  split; [exact H0|]. split; [exact H1|]. split; [exact H2|].
  exact (savings_compound_formula default_inputs default_costs H0 H1 H2).
Defined.

Lemma next_savings_ge (i : inputs) (s : Q) :
  0 <= annual_investment_return i -> 0 <= projection_annual_saving i ->
  0 <= s -> s <= next_savings i s.
Proof.
  intros Hr Ha Hs. unfold next_savings.
  assert (H : 0 <= s * (annual_investment_return i / 100)).
  { apply Qmult_le_0_compat; [exact Hs|].
    apply Qmult_le_0_compat; [exact Hr | discriminate]. }
  lra.
Qed.

Lemma grow_above_start (i : inputs) (n : nat) :
  0 <= annual_investment_return i -> 0 <= projection_annual_saving i ->
  forall (s0 : Q) (k : nat) (y : Q),
    0 <= s0 -> nth_error (s0 :: grow i s0 n) k = Some y -> s0 <= y.
Proof.
  intros Hr Ha. induction n as [|n IH]; intros s0 k y Hs0 Hk.
  - destruct k as [|[|k]]; try discriminate.
    injection Hk as <-. apply Qle_refl.
  - destruct k as [|k].
    + injection Hk as <-. apply Qle_refl.
    + pose proof (next_savings_ge i s0 Hr Ha Hs0) as Hn.
      cbn [grow nth_error] in Hk.
      apply Qle_trans with (next_savings i s0); [exact Hn|].
      apply (IH (next_savings i s0) k); [|exact Hk].
      apply Qle_trans with s0; assumption.
Qed.

Lemma grow_monotone (i : inputs) (n : nat) :
  0 <= annual_investment_return i -> 0 <= projection_annual_saving i ->
  forall (s0 : Q) (j k : nat) (x y : Q),
    0 <= s0 -> (j <= k)%nat ->
    nth_error (s0 :: grow i s0 n) j = Some x ->
    nth_error (s0 :: grow i s0 n) k = Some y ->
    x <= y.
Proof.
  intros Hr Ha. induction n as [|n IH]; intros s0 j k x y Hs0 Hjk Hj Hk.
  - destruct j as [|[|j]], k as [|[|k]]; try discriminate; try lia.
    injection Hj as <-. injection Hk as <-. apply Qle_refl.
  - destruct j as [|j].
    + injection Hj as <-. now apply (grow_above_start i (S n) Hr Ha s0 k).
    + destruct k as [|k]; [lia|].
      cbn [grow nth_error] in Hj, Hk.
      apply (IH (next_savings i s0) j k); try assumption; [|lia].
      apply Qle_trans with s0; [exact Hs0 | now apply next_savings_ge].
Qed.

Lemma widgets_ok_saving (i : inputs) :
  widgets_ok i = true ->
  0 <= current_savings i /\ 0 <= annual_investment_return i
  /\ 0 <= projection_annual_saving i /\ 0 <= annual_saving i.
Proof.
  intros H. widget_facts H.
  assert (Hrate : 0 <= savings_rate i / 100)
    by (apply Qmult_le_0_compat; [lra | discriminate]).
  repeat split; try lra.
  - unfold projection_annual_saving.
    apply Qmult_le_0_compat; [|discriminate].
    now apply Qmult_le_0_compat.
  - unfold annual_saving.
    apply Qmult_le_0_compat; [|exact Hrate].
    apply Qmult_le_0_compat; [assumption | discriminate].
Qed.

Lemma widgets_ok_horizon (i : inputs) :
  widgets_ok i = true -> (0 <= years_until_retirement i)%Z /\ ~ swr i == 0.
Proof.
  intros H. widget_facts H. split.
  - unfold years_until_retirement. lia.
  - intros E. lra.
Qed.

(** X5. On inputs within the widget ranges projected savings never shrink:
    they start at [current_savings], are never negative, and each row's
    savings are at least those of every earlier row. *)
Theorem savings_never_decrease (i : inputs) (c : costs) :
  widgets_ok i = true ->
  exists p,
    calculate_fire_projection i c = Ok p
    /\ forall j k x y,
         (j <= k)%nat ->
         nth_error (savings p) j = Some x ->
         nth_error (savings p) k = Some y ->
         0 <= current_savings i /\ current_savings i <= x /\ x <= y.
Proof.
  intros Hw.
  destruct (widgets_ok_horizon i Hw) as [HN Hs].
  destruct (widgets_ok_saving i Hw) as (Hcs & Hr & Ha & _).
  eexists. split; [apply calculate_fire_projection_ok; assumption|].
  cbn [savings]. intros j k x y Hjk Hj Hk.
  split; [exact Hcs|]. split.
  - now apply (grow_above_start i (horizon i) Hr Ha (current_savings i) j).
  - now apply (grow_monotone i (horizon i) Hr Ha (current_savings i) j k).
Qed.

Lemma savings_never_decrease_witness :
  widgets_ok default_inputs = true
  /\ exists p,
       calculate_fire_projection default_inputs default_costs = Ok p
       /\ forall j k x y,
            (j <= k)%nat ->
            nth_error (savings p) j = Some x ->
            nth_error (savings p) k = Some y ->
            0 <= current_savings default_inputs
            /\ current_savings default_inputs <= x /\ x <= y.
Proof.
  assert (H : widgets_ok default_inputs = true) by reflexivity.
  split; [exact H|].
  exact (savings_never_decrease default_inputs default_costs H).
Defined.

(** ** The weighted rate and the compounded cost *)

Lemma scale_between (a r lo hi : Q) :
  0 <= a -> lo <= r -> r <= hi -> a * lo <= a * r /\ a * r <= a * hi.
Proof.
  intros Ha Hlo Hhi. rewrite !(Qmult_comm a).
  split; apply Qmult_le_compat_r; assumption.
Qed.









(** ** The FIRE number *)

(** X9. For a withdrawal rate within the slider's range, 2 to 5 percent,
    and non-negative expenses, the FIRE number is between 20 and 50 times
    the expenses. *)
Theorem fire_number_between_20_and_50_times (e s : Q) :
  2 <= s -> s <= 5 -> 0 <= e ->
  exists fn,
    calculate_fire_number e s = Ok fn /\ 20 * e <= fn /\ fn <= 50 * e.
Proof.
  intros Hlo Hhi He.
  assert (Hpos : 0 < s) by lra.
  rewrite calculate_fire_number_ok by (intros H0; lra).
  eexists. split; [reflexivity|].
  assert (H20 : 20 <= 100 / s) by (apply Qle_shift_div_l; [exact Hpos | lra]).
  assert (H50 : 100 / s <= 50) by (apply Qle_shift_div_r; [exact Hpos | lra]).
  rewrite !(Qmult_comm _ e).
  destruct (scale_between e (100 / s) 20 50 He H20 H50) as [l u].
  split; assumption.
Qed.

Lemma fire_number_between_20_and_50_times_witness :
  2 <= 4 /\ 4 <= 5 /\ 0 <= 1032000
  /\ exists fn,
       calculate_fire_number 1032000 4 = Ok fn
       /\ 20 * 1032000 <= fn /\ fn <= 50 * 1032000.
Proof.
  assert (H0 : 2 <= 4) by discriminate.
  assert (H1 : 4 <= 5) by discriminate.
  assert (H2 : 0 <= 1032000) by discriminate.
  split; [exact H0|]. split; [exact H1|]. split; [exact H2|].
  exact (fire_number_between_20_and_50_times 1032000 4 H0 H1 H2).
Defined.

(** * The page around the projection *)

Lemma getitem_nth {A : Type} (l : list A) (k : nat) (x : A) :
  nth_error l k = Some x -> getitem l k = Ok x.
Proof. intros H. unfold getitem. now rewrite H. Qed.

Lemma first_true_bound (l : list bool) (k : nat) :
  first_true l = Some k -> (k < length l)%nat.
Proof.
  intros H. apply first_true_some in H. destruct H as [H _].
  apply nth_error_Some. rewrite H. discriminate.
Qed.

Lemma flags_row (i : inputs) (c : costs) (y : nat) (s : Q) :
  (0 <= years_until_retirement i)%Z -> (1 <= y <= horizon i)%nat ->
  nth_error (current_savings i :: grow i (current_savings i) (horizon i)) y
  = Some s ->
  nth_error
    (false :: flags i c (current_savings i)
                (Py.range 1 (years_until_retirement i + 1))) y
  = Some (Qle_bool (required i c (Z.of_nat y)) s).
Proof.
  intros HN [Hy1 Hy2] Hs.
  destruct y as [|y]; [lia|]. cbn [nth_error] in *.
  apply flags_nth.
  - rewrite range_nth; [f_equal; lia | unfold horizon in Hy2; lia].
  - rewrite range_length.
    replace (Z.to_nat (years_until_retirement i + 1 - 1)) with (horizon i)
      by (unfold horizon; f_equal; lia).
    exact Hs.
Qed.

Lemma flags_row_count (i : inputs) (c : costs) :
  (0 <= years_until_retirement i)%Z ->
  length (false :: flags i c (current_savings i)
                     (Py.range 1 (years_until_retirement i + 1)))
  = S (horizon i).
Proof.
  intros HN. simpl. rewrite flags_length, range_length.
  unfold horizon. do 2 f_equal. lia.
Qed.

Ltac with_projection i c HN Hs p Hp :=
  pose proof (calculate_fire_projection_ok i c HN Hs) as Hp;
  match type of Hp with _ = Ok ?r => set (p := r) in Hp end.

(** X10. When a FIRE year [k] is reported, the chart marker is computed
    without an index error; it sits at age [current_age + k] on the savings
    curve, and the savings there are at least the FIRE number of that row.
    When no FIRE year is reported there is no marker. *)
Theorem fire_marker_on_savings_curve (i : inputs) (c : costs) :
  (0 <= years_until_retirement i)%Z -> ~ swr i == 0 ->
  exists p m,
    calculate_fire_projection i c = Ok p
    /\ fire_marker p = Ok m
    /\ (fire_year p = None -> m = None)
    /\ forall k, fire_year p = Some k ->
         exists s fn,
           m = Some ((current_age i + Z.of_nat k)%Z, s)
           /\ nth_error (savings p) k = Some s
           /\ nth_error (fire_numbers p) k = Some fn
           /\ fn <= s.
Proof.
  intros HN Hs. with_projection i c HN Hs p Hp.
  enough (Hm : exists m,
             fire_marker p = Ok m
             /\ (fire_year p = None -> m = None)
             /\ forall k, fire_year p = Some k ->
                  exists s fn,
                    m = Some ((current_age i + Z.of_nat k)%Z, s)
                    /\ nth_error (savings p) k = Some s
                    /\ nth_error (fire_numbers p) k = Some fn
                    /\ fn <= s)
    by (destruct Hm as [m Hm]; exists p, m; split; [exact Hp | exact Hm]).
  clear Hp. unfold fire_marker. subst p.
  cbn [age savings fire_numbers fire_achieved fire_year].
  set (l := false :: flags i c (current_savings i) _).
  destruct (first_true l) as [k|] eqn:Hfy.
  - pose proof (first_true_bound l k Hfy) as Hk.
    unfold l in Hk. rewrite flags_row_count in Hk by assumption.
    assert (Hle : (k <= horizon i)%nat) by lia.
    destruct (first_true_some l k Hfy) as [Htrue _].
    assert (H1 : (1 <= k)%nat) by (destruct k; [discriminate | lia]).
    destruct (savings_nth_some i (horizon i) k (current_savings i) Hle)
      as [s Hsv].
    rewrite (getitem_nth _ _ _ (ages_nth i k HN Hle)), bind_ok.
    rewrite (getitem_nth _ _ _ Hsv), bind_ok.
    eexists. split; [reflexivity|].
    split; [discriminate|].
    intros k' [= <-]. exists s, (required i c (Z.of_nat k)).
    split; [reflexivity|]. split; [exact Hsv|].
    split; [now apply fire_numbers_nth|].
    unfold l in Htrue.
    rewrite (flags_row i c k s HN (conj H1 Hle) Hsv) in Htrue.
    injection Htrue as Htrue. now apply Qle_bool_iff.
  - exists None. split; [reflexivity|].
    split; [reflexivity | discriminate].
Qed.

Lemma fire_marker_on_savings_curve_witness :
  (0 <= years_until_retirement default_inputs)%Z
  /\ ~ swr default_inputs == 0
  /\ exists p m,
       calculate_fire_projection default_inputs default_costs = Ok p
       /\ fire_marker p = Ok m
       /\ (fire_year p = None -> m = None)
       /\ forall k, fire_year p = Some k ->
            exists s fn,
              m = Some ((current_age default_inputs + Z.of_nat k)%Z, s)
              /\ nth_error (savings p) k = Some s
              /\ nth_error (fire_numbers p) k = Some fn
              /\ fn <= s.
Proof.
  assert (H0 : (0 <= years_until_retirement default_inputs)%Z)
    by (vm_compute; discriminate).
  assert (H1 : ~ swr default_inputs == 0) by (vm_compute; discriminate).
  split; [exact H0|]. split; [exact H1|].
  exact (fire_marker_on_savings_curve default_inputs default_costs H0 H1).
Defined.



(** X12. Without a reported FIRE year the warning is shown exactly when the
    horizon is positive; with a horizon of 0 the insights section shows
    neither the success message nor the warning, whatever the savings. *)
Theorem zero_horizon_shows_no_insight (i : inputs) (c : costs) :
  (0 <= years_until_retirement i)%Z -> ~ swr i == 0 ->
  exists p msg,
    calculate_fire_projection i c = Ok p
    /\ fire_insight i p = Ok msg
    /\ (years_until_retirement i = 0%Z -> msg = NoInsight)
    /\ (fire_year p = None -> (0 < years_until_retirement i)%Z ->
        msg = Warning)
    /\ (msg = Warning ->
        (0 < years_until_retirement i)%Z
        /\ forall y, nth_error (fire_achieved p) y <> Some true).
Proof.
  intros HN Hs. with_projection i c HN Hs p Hp.
  enough (Hm : exists msg,
             fire_insight i p = Ok msg
             /\ (years_until_retirement i = 0%Z -> msg = NoInsight)
             /\ (fire_year p = None -> (0 < years_until_retirement i)%Z ->
                 msg = Warning)
             /\ (msg = Warning ->
                 (0 < years_until_retirement i)%Z
                 /\ forall y, nth_error (fire_achieved p) y <> Some true))
    by (destruct Hm as [m Hm]; exists p, m; split; [exact Hp | exact Hm]).
  clear Hp. unfold fire_insight. subst p.
  cbn [age year fire_achieved fire_year].
  set (l := false :: flags i c (current_savings i) _).
  destruct (first_true l) as [k|] eqn:Hfy.
  - pose proof (first_true_bound l k Hfy) as Hk.
    unfold l in Hk. rewrite flags_row_count in Hk by assumption.
    assert (Hle : (k <= horizon i)%nat) by lia.
    destruct (first_true_some l k Hfy) as [Htrue _].
    assert (H1 : (1 <= k)%nat) by (destruct k; [discriminate | lia]).
    rewrite (getitem_nth _ _ _ (ages_nth i k HN Hle)), bind_ok.
    rewrite (getitem_nth _ _ _ (years_nth i k HN Hle)), bind_ok.
    eexists. split; [reflexivity|].
    split; [|split; discriminate].
    intros H0. unfold horizon in Hle. rewrite H0 in Hle. simpl in Hle. lia.
  - destruct (Z.gtb_spec (years_until_retirement i) 0) as [Hpos|Hnp].
    + exists Warning. split; [reflexivity|].
      split; [intros H0; lia|]. split; [reflexivity|].
      intros _. split; [lia|]. now apply first_true_none.
    + exists NoInsight. split; [reflexivity|].
      split; [reflexivity|]. split; [intros _ Hp; lia | discriminate].
Qed.

Lemma zero_horizon_shows_no_insight_witness :
  (0 <= years_until_retirement settled_inputs)%Z
  /\ ~ swr settled_inputs == 0
  /\ exists p msg,
       calculate_fire_projection settled_inputs default_costs = Ok p
       /\ fire_insight settled_inputs p = Ok msg
       /\ (years_until_retirement settled_inputs = 0%Z -> msg = NoInsight)
       /\ (fire_year p = None ->
           (0 < years_until_retirement settled_inputs)%Z ->
           msg = Warning)
       /\ (msg = Warning ->
           (0 < years_until_retirement settled_inputs)%Z
           /\ forall y, nth_error (fire_achieved p) y <> Some true).
Proof.
  assert (H0 : (0 <= years_until_retirement settled_inputs)%Z)
    by (vm_compute; discriminate).
  assert (H1 : ~ swr settled_inputs == 0) by (vm_compute; discriminate).
  split; [exact H0|]. split; [exact H1|].
  exact (zero_horizon_shows_no_insight settled_inputs default_costs H0 H1).
Defined.

(** ** The years-to-save tile *)

Lemma annual_saving_positive (i : inputs) :
  widgets_ok i = true -> 0 < monthly_income i -> 0 < annual_saving i.
Proof.
  intros Hw Hinc. widget_facts Hw. unfold annual_saving.
  apply Qmult_lt_0_compat.
  - apply Qmult_lt_0_compat; [exact Hinc | reflexivity].
  - apply Qlt_shift_div_l; [reflexivity | lra].
Qed.

Lemma annual_saving_zero (i : inputs) :
  monthly_income i == 0 -> annual_saving i == 0.
Proof. intros H. unfold annual_saving. rewrite H. ring. Qed.

Lemma years_to_save_quotient (i : inputs) (fn : Q) :
  1 <= annual_investment_return i -> 0 < annual_saving i ->
  0 < annual_saving i * (1 + annual_investment_return i / 100)
  /\ years_to_save i fn
     = Ok ((fn - current_savings i)
           / (annual_saving i * (1 + annual_investment_return i / 100))).
Proof.
  intros Hr Hpos.
  pose proof (years_to_save_divisor_positive i Hr Hpos) as Hd.
  split; [exact Hd|]. unfold years_to_save.
  destruct (Qle_bool (annual_saving i) 0) eqn:E.
  - apply Qle_bool_iff in E. exfalso. apply (Qlt_not_le _ _ Hpos E).
  - apply truediv_ok. intros H0. rewrite H0 in Hd. discriminate.
Qed.



Lemma tile_of_positive (v : Q) : 0 < v -> years_to_save_tile v = Years v.
Proof.
  intros Hv. unfold years_to_save_tile, below_infinity, Py.gt.
  destruct (Qle_bool v 0) eqn:E; [|reflexivity].
  apply Qle_bool_iff in E. exfalso. apply (Qlt_not_le _ _ Hv E).
Qed.

Lemma tile_of_nonpositive (v : Q) :
  v <= 0 -> years_to_save_tile v = NotAvailable.
Proof.
  intros Hv. unfold years_to_save_tile, Py.gt.
  apply Qle_bool_iff in Hv. now rewrite Hv.
Qed.

(** X14. On inputs within the widget ranges the tile shows a number of
    years when the income is positive and the FIRE number exceeds the
    current savings, and shows N/A when the income is zero or the savings
    already reach the FIRE number. *)
Theorem years_to_save_tile_shown (i : inputs) (fn : Q) :
  widgets_ok i = true ->
  exists v,
    years_to_save i fn = Ok v
    /\ (0 < monthly_income i -> current_savings i < fn ->
        years_to_save_tile v = Years v /\ 0 < v)
    /\ (monthly_income i == 0 \/ fn <= current_savings i ->
        years_to_save_tile v = NotAvailable).
Proof.
  intros Hw. pose proof (widgets_ok_return i Hw) as Hr.
  destruct (Qle_bool (annual_saving i) 0) eqn:E.
  - unfold years_to_save. rewrite E. exists 0.
    split; [reflexivity|]. split; [|reflexivity].
    intros Hinc _. apply Qle_bool_iff in E.
    pose proof (annual_saving_positive i Hw Hinc) as Hpos.
    exfalso. apply (Qlt_not_le _ _ Hpos E).
  - assert (Hpos : 0 < annual_saving i).
    { apply Qnot_le_lt. intros Hle. apply Qle_bool_iff in Hle. congruence. }
    destruct (years_to_save_quotient i fn Hr Hpos) as [Hd Hv].
    eexists. split; [exact Hv|]. split.
    + intros _ Hgap.
      assert (Hv0 : 0 < (fn - current_savings i)
                        / (annual_saving i
                           * (1 + annual_investment_return i / 100)))
        by (apply Qlt_shift_div_l; [exact Hd | lra]).
      split; [now apply tile_of_positive | exact Hv0].
    + intros [Hinc | Hmet].
      * apply annual_saving_zero in Hinc. rewrite Hinc in Hpos. discriminate.
      * apply tile_of_nonpositive.
        apply Qle_shift_div_r; [exact Hd | lra].
Qed.

Lemma years_to_save_tile_shown_witness :
  widgets_ok default_inputs = true
  /\ exists v,
       years_to_save default_inputs 100000000 = Ok v
       /\ (0 < monthly_income default_inputs ->
           current_savings default_inputs < 100000000 ->
           years_to_save_tile v = Years v /\ 0 < v)
       /\ (monthly_income default_inputs == 0
           \/ 100000000 <= current_savings default_inputs ->
           years_to_save_tile v = NotAvailable).
Proof.
  assert (H0 : widgets_ok default_inputs = true) by reflexivity.
  split; [exact H0|].
  exact (years_to_save_tile_shown default_inputs 100000000 H0).
Defined.

(** ** Outside and inside the widget ranges *)

Lemma range_empty (lo hi : Z) : (hi <= lo)%Z -> Py.range lo hi = [].
Proof.
  intros H. unfold Py.range.
  replace (Z.to_nat (hi - lo)) with O by lia. reflexivity.
Qed.

(** X15. With a retirement age below the current age the function still
    returns, but the table is ragged: the age and year columns are empty
    while savings, expenses, FIRE numbers and flags each hold the one
    starting row, and no FIRE year is reported. *)
Theorem negative_horizon_gives_ragged_table (i : inputs) (c : costs) :
  (years_until_retirement i < 0)%Z -> ~ swr i == 0 ->
  exists p fn0,
    calculate_fire_projection i c = Ok p
    /\ calculate_fire_number (total_annual_cost c) (swr i) = Ok fn0
    /\ age p = [] /\ year p = []
    /\ savings p = [current_savings i]
    /\ annual_expenses p = [total_annual_cost c]
    /\ fire_numbers p = [fn0]
    /\ fire_achieved p = [false]
    /\ fire_year p = None.
Proof.
  intros HN Hs. unfold calculate_fire_projection.
  rewrite (calculate_fire_number_ok _ _ Hs), bind_ok.
  rewrite !range_empty by lia. simpl.
  eexists. eexists. split; [reflexivity|]. repeat split.
Qed.

Lemma negative_horizon_gives_ragged_table_witness :
  (years_until_retirement backwards_inputs < 0)%Z
  /\ ~ swr backwards_inputs == 0
  /\ exists p fn0,
       calculate_fire_projection backwards_inputs default_costs = Ok p
       /\ calculate_fire_number (total_annual_cost default_costs)
                                (swr backwards_inputs) = Ok fn0
       /\ age p = [] /\ year p = []
       /\ savings p = [current_savings backwards_inputs]
       /\ annual_expenses p = [total_annual_cost default_costs]
       /\ fire_numbers p = [fn0]
       /\ fire_achieved p = [false]
       /\ fire_year p = None.
Proof.
  assert (H0 : (years_until_retirement backwards_inputs < 0)%Z) by reflexivity.
  assert (H1 : ~ swr backwards_inputs == 0) by (vm_compute; discriminate).
  split; [exact H0|]. split; [exact H1|].
  exact (negative_horizon_gives_ragged_table backwards_inputs default_costs
           H0 H1).
Defined.

Lemma fire_year_row_exists (i : inputs) (c : costs) (p : projection) :
  (0 <= years_until_retirement i)%Z -> ~ swr i == 0 ->
  calculate_fire_projection i c = Ok p ->
  forall k, fire_year p = Some k ->
    exists a y s,
      nth_error (age p) k = Some a
      /\ nth_error (year p) k = Some y
      /\ nth_error (savings p) k = Some s.
Proof.
  intros HN Hs Hp k Hk.
  rewrite (calculate_fire_projection_ok i c HN Hs) in Hp.
  injection Hp as <-. cbn [age year savings fire_year] in *.
  pose proof (first_true_bound
                (false :: flags i c (current_savings i)
                            (Py.range 1 (years_until_retirement i + 1)))
                k Hk) as Hb.
  rewrite flags_row_count in Hb by assumption.
  assert (Hle : (k <= horizon i)%nat) by lia.
  destruct (savings_nth_some i (horizon i) k (current_savings i) Hle) as [s Hsv].
  eexists. eexists. exists s.
  split; [now apply ages_nth|]. split; [now apply years_nth | exact Hsv].
Qed.

(** X16. On every input within the widget ranges the page is computed to
    the end: no division by zero, no index out of range and no failed
    [index(True)].  The table it shows is the projection for the annualised
    costs, and the FIRE number it shows is the one of source line 100. *)
Theorem render_never_raises (i : inputs) :
  widgets_ok i = true ->
  exists pg c,
    render i = Ok pg
    /\ annualize i = Ok c
    /\ calculate_fire_projection i c = Ok (page_projection pg)
    /\ fire_number i c = Ok (page_fire_number pg)
    /\ fire_marker (page_projection pg) = Ok (page_marker pg)
    /\ fire_insight i (page_projection pg) = Ok (page_insight pg)
    /\ years_to_save i (page_fire_number pg) = Ok (page_years_to_save pg)
    /\ page_tile pg = years_to_save_tile (page_years_to_save pg).
Proof.
  intros Hw. pose proof (widgets_ok_return i Hw) as Hret.
  destruct (widgets_ok_horizon i Hw) as [HN Hswr].
  assert (Ha : exists c, annualize i = Ok c).
  { widget_facts Hw. unfold annualize.
    rewrite truediv_ok by (intros E; lra). rewrite bind_ok.
    rewrite truediv_ok by (intros E; lra). rewrite bind_ok.
    eexists; reflexivity. }
  destruct Ha as [c Ha].
  destruct (weighted_inflation_ok i c) as [w Hwi].
  pose proof (calculate_future_expenses_ok i c _ HN) as He.
  pose proof (calculate_fire_number_ok
                (future_cost i c (years_until_retirement i)) _ Hswr) as Hf.
  destruct (years_to_save_ok i
              (future_cost i c (years_until_retirement i) * (100 / swr i)) Hret)
    as [v Hv].
  destruct (calculate_fire_projection i c) as [p|e] eqn:Hp;
    [|rewrite (calculate_fire_projection_ok i c HN Hswr) in Hp; discriminate].
  pose proof (fire_year_row_exists i c p HN Hswr Hp) as Hrow.
  assert (Hm : exists m, fire_marker p = Ok m).
  { unfold fire_marker. destruct (fire_year p) as [k|]; [|now exists None].
    destruct (Hrow k eq_refl) as (a & y & s & H1 & _ & H3).
    rewrite (getitem_nth _ _ _ H1), bind_ok, (getitem_nth _ _ _ H3), bind_ok.
    eexists; reflexivity. }
  assert (Hi : exists msg, fire_insight i p = Ok msg).
  { unfold fire_insight. destruct (fire_year p) as [k|].
    - destruct (Hrow k eq_refl) as (a & y & s & H1 & H2 & _).
      rewrite (getitem_nth _ _ _ H1), bind_ok, (getitem_nth _ _ _ H2), bind_ok.
      eexists; reflexivity.
    - destruct (years_until_retirement i >? 0)%Z; eexists; reflexivity. }
  destruct Hm as [m Hm]. destruct Hi as [msg Hi].
  eexists. exists c. split.
  - unfold render, headline.
    rewrite Ha, bind_ok, Hwi, bind_ok, He, bind_ok, Hf, !bind_ok.
    rewrite Hp, bind_ok, Hm, bind_ok, Hi, bind_ok, Hv, bind_ok. reflexivity.
  - cbn [page_projection page_fire_number page_marker page_insight
         page_years_to_save page_tile].
    split; [exact Ha|]. split; [exact Hp|].
    split; [unfold fire_number; rewrite He, bind_ok; exact Hf|].
    split; [exact Hm|]. split; [exact Hi|]. split; [exact Hv | reflexivity].
Qed.

Lemma render_never_raises_witness :
  widgets_ok default_inputs = true
  /\ exists pg c,
       render default_inputs = Ok pg
       /\ annualize default_inputs = Ok c
       /\ calculate_fire_projection default_inputs c = Ok (page_projection pg)
       /\ fire_number default_inputs c = Ok (page_fire_number pg)
       /\ fire_marker (page_projection pg) = Ok (page_marker pg)
       /\ fire_insight default_inputs (page_projection pg)
          = Ok (page_insight pg)
       /\ years_to_save default_inputs (page_fire_number pg)
          = Ok (page_years_to_save pg)
       /\ page_tile pg = years_to_save_tile (page_years_to_save pg).
Proof.
  assert (H : widgets_ok default_inputs = true) by reflexivity.
  split; [exact H|].
  exact (render_never_raises default_inputs H).
Defined.
